(** * Star ledger: the view-processing procedures of the migrations

    A shallow embedding of the PL/pgSQL procedures [process_post_view] and
    [process_story_view] and of the tables they read and write, followed by
    the media picker of the post form and the likes of the feed.

    Modelling choices, all taken from the SQL text:
    - a table with a primary key [id] is a finite map from the key to the
      remaining columns; a table that is only appended to and searched is a
      list of rows, [INSERT] appending at the end;
    - SQL NULL is [None]; only the columns the procedures guard with
      [coalesce] (or declare without NOT NULL and use in arithmetic) are
      options.  A NULL [status] behaves like any status other than the one
      selected, so [status] is a plain string;
    - [uuid] and [text] are different types.  Migration 20251022 declares
      [story_views.story_id uuid REFERENCES user_storylines(id)], so the
      ids of [user_storylines] are uuids; [post_likes.post_id TEXT
      REFERENCES posts(id)] makes the ids of [posts] texts;
    - [bigint] and [integer] values are [Z], their machine range left out;
      [numeric] values are exact rationals [Q], compared with [==];
      [wallet_balance DECIMAL(10,2)] is a number of hundredths, and an
      assignment to it rounds to hundredths and raises when ten digits do
      not hold the result;
    - a statement either succeeds or raises; a raise ends the call and rolls
      it back, so the database after a raising call is the database before;
    - [UPDATE ... WHERE id = k] changes the row of key [k]: no row, no
      change and no raise;
    - [SELECT ... INTO v] that finds no row leaves [v] NULL, and [IF] takes
      its branch only when the condition is true (not when it is NULL);
    - the foreign keys of [story_views] and [story_transactions] are checked
      on insert against [auth.users] and [user_storylines], and NOT NULL on
      the values of [story_transactions]; [UNIQUE(story_id, viewer_id)] is
      not checked on insert, it is proved to hold; tables declared in none
      of the source files ([post_views], [view_transactions],
      [wallet_history], [user_notifications], the column [total_earned])
      carry no constraint.

    Two migrations define the procedures: 20251022023014 introduces
    [process_story_view], and 20251106230001 redefines it and
    [process_post_view] with NGN earnings.  An undated third overload of
    [process_story_view], keyed by a [bigint] id and moving stars from
    viewer to owner, writes neither View Records nor Ledger Transactions
    and is not modelled. *)

From Stdlib Require Import ZArith QArith.
From stdpp Require Import gmap strings list fin_maps.

Open Scope Z_scope.

(** ** SQL values *)

Definition text := string.

Inductive uuid := Uuid (hex : string).

Definition uuid_text (u : uuid) : text :=
  match u with Uuid s => s end.

#[global] Instance uuid_eq_dec : EqDecision uuid :=
  λ a b,
    match a, b with
    | Uuid x, Uuid y =>
        match decide (x = y) with
        | left e => left (f_equal Uuid e)
        | right n => right (λ e : Uuid x = Uuid y, n (f_equal uuid_text e))
        end
    end.

#[global] Instance uuid_countable : Countable uuid :=
  inj_countable' uuid_text Uuid (λ u, match u with Uuid _ => eq_refl end).

Definition numeric := Q.

(** A [DECIMAL(10,2)] value, counted in hundredths. *)
Record decimal_10_2 := Cents { cents : Z }.

Definition numeric_of (d : decimal_10_2) : numeric := cents d # 100.

(** The hundredths of a numeric, rounded half away from zero. *)
Definition round_hundredths (q : numeric) : Z :=
  let n := Qnum q * 100 in
  let d := Z.pos (Qden q) in
  if 0 <=? n then (2 * n + d) / (2 * d) else - ((2 * - n + d) / (2 * d)).

(** Ten digits, two of them after the point. *)
Definition fits_10_2 (z : Z) : bool := Z.abs z <? 10 ^ 10.

(** The conditions a statement can raise. *)
Inductive sqlstate :=
| undefined_function
| datatype_mismatch
| numeric_value_out_of_range
| foreign_key_violation
| not_null_violation.

(** A statement succeeds with a value or raises. *)
Inductive exec (A : Type) :=
| ok (a : A)
| raise (e : sqlstate).

Arguments ok {A} a.
Arguments raise {A} e.

Definition bind {A B} (x : exec A) (f : A → exec B) : exec B :=
  match x with
  | ok a => f a
  | raise e => raise e
  end.

Notation "'let!' x := c 'in' k" := (bind c (fun x => k))
  (at level 10, x name, k at level 200).

Definition coalesce {A} (x : option A) (d : A) : A := default d x.

(** Three-valued operators: NULL in, NULL out. *)
Definition sql_binop {A B C} (f : A → B → C) (x : option A) (y : option B) : option C :=
  match x, y with
  | Some a, Some b => Some (f a b)
  | _, _ => None
  end.

Definition sql_lt : option Z → option Z → option bool := sql_binop Z.ltb.
Definition sql_eq : option Z → option Z → option bool := sql_binop Z.eqb.
Definition sql_sub : option Z → option Z → option Z := sql_binop Z.sub.
Definition sql_add : option Z → option Z → option Z := sql_binop Z.add.
Definition sql_qadd : option numeric → option numeric → option numeric := sql_binop Qplus.
Definition sql_qmul : option numeric → option numeric → option numeric := sql_binop Qmult.

(** [IF c THEN]: the branch is taken only when [c] is true. *)
Definition sql_true (c : option bool) : bool := default false c.

(** The assignment of a numeric to a [DECIMAL(10,2)] column. *)
Definition to_decimal_10_2 (q : option numeric) : exec (option decimal_10_2) :=
  match q with
  | None => ok None
  | Some q =>
      if fits_10_2 (round_hundredths q) then ok (Some (Cents (round_hundredths q)))
      else raise numeric_value_out_of_range
  end.

(** [id = p] for an [id uuid] and a [p text]: there is no such operator, and
    the statement that holds the comparison raises whatever the table holds. *)
Definition uuid_eq_text {A} : exec A := raise undefined_function.

(** A text value offered to a uuid column: there is no assignment cast. *)
Definition text_to_uuid_column (t : text) : exec uuid := raise datatype_mismatch.

(** ** JSON results *)

Inductive jvalue :=
| JBool (b : bool)
| JInt (n : Z)
| JNum (q : numeric)
| JText (s : string)
| JNull.

Definition json := list (string * jvalue).

Definition json_build_object (kvs : list (string * jvalue)) : json := kvs.

Fixpoint json_get (k : string) (j : json) : option jvalue :=
  match j with
  | [] => None
  | (k', v) :: j' => if String.eqb k k' then Some v else json_get k j'
  end.

(** An optional value as a JSON value. *)
Definition jnum (q : option numeric) : jvalue := from_option JNum JNull q.
Definition jint (n : option Z) : jvalue := from_option JInt JNull n.

(** ** Tables *)

(** [user_profiles]: the two balances and the running total. *)
Record user_profiles_row := mk_user_profiles_row {
  star_balance : option Z;
  wallet_balance : option decimal_10_2;
  total_earned : option numeric
}.

(** [posts] and [user_storylines]: owner, price, status and view counter. *)
Record content_row := mk_content_row {
  user_id : uuid;
  star_price : option Z;
  status : string;
  view_count : option Z
}.

Record post_views_row := mk_post_views_row {
  pv_post_id : text;
  pv_user_id : uuid
}.

Record story_views_row := mk_story_views_row {
  sv_story_id : uuid;
  sv_viewer_id : uuid;
  sv_stars_spent : option Z
}.

Record wallet_history_row := mk_wallet_history_row {
  wh_user_id : uuid;
  wh_type : string;
  wh_amount : numeric;
  wh_currency : string;
  wh_meta : json
}.

Record view_transactions_row := mk_view_transactions_row {
  vt_post_id : text;
  vt_viewer_id : uuid;
  vt_uploader_id : uuid;
  vt_star_price : Z;
  vt_uploader_amount : numeric;
  vt_viewer_amount : numeric;
  vt_platform_amount : numeric
}.

Record story_transactions_row := mk_story_transactions_row {
  st_story_id : uuid;
  st_uploader_id : uuid;
  st_viewer_id : uuid;
  st_stars_spent : Z;
  st_uploader_earn : numeric;
  st_viewer_earn : numeric;
  st_platform_earn : numeric
}.

(** [user_notifications]: [format(...)] is kept as its template and its
    arguments; the emoji closing each title is left out. *)
Record user_notifications_row := mk_user_notifications_row {
  un_user_id : uuid;
  un_title : string;
  un_message : string * list jvalue;
  un_type : string;
  un_notification_category : string;
  un_action_data : json
}.

Definition format (template : string) (args : list jvalue) : string * list jvalue :=
  (template, args).

(** [auth_users] holds the ids of [auth.users], the target of the foreign
    keys. *)
Record database := mk_database {
  auth_users : gset uuid;
  user_profiles : gmap uuid user_profiles_row;
  posts : gmap text content_row;
  user_storylines : gmap uuid content_row;
  post_views : list post_views_row;
  story_views : list story_views_row;
  wallet_history : list wallet_history_row;
  view_transactions : list view_transactions_row;
  story_transactions : list story_transactions_row;
  user_notifications : list user_notifications_row
}.

(** ** Statements *)

Definition update_user_profiles (set : user_profiles_row → user_profiles_row)
    (id : uuid) (db : database) : database :=
  mk_database (auth_users db) (alter set id (user_profiles db)) (posts db)
    (user_storylines db) (post_views db) (story_views db) (wallet_history db)
    (view_transactions db) (story_transactions db) (user_notifications db).

(** An [UPDATE] whose new row is checked against the column types: the row,
    if there is one, is replaced by what [set] makes of it, and a raise of
    [set] is the statement's. *)
Definition update_user_profiles_checked (set : user_profiles_row → exec user_profiles_row)
    (id : uuid) (db : database) : exec database :=
  match user_profiles db !! id with
  | None => ok db
  | Some r => let! r' := set r in ok (update_user_profiles (λ _, r') id db)
  end.

Definition update_user_storylines (set : content_row → content_row)
    (id : uuid) (db : database) : database :=
  mk_database (auth_users db) (user_profiles db) (posts db)
    (alter set id (user_storylines db)) (post_views db) (story_views db)
    (wallet_history db) (view_transactions db) (story_transactions db)
    (user_notifications db).

(** [story_id uuid REFERENCES user_storylines(id)],
    [viewer_id uuid REFERENCES auth.users(id)] *)
Definition insert_story_views (r : story_views_row) (db : database) : exec database :=
  if bool_decide (is_Some (user_storylines db !! sv_story_id r))
     && bool_decide (sv_viewer_id r ∈ auth_users db)
  then
    ok (mk_database (auth_users db) (user_profiles db) (posts db) (user_storylines db)
          (post_views db) (story_views db ++ [r]) (wallet_history db)
          (view_transactions db) (story_transactions db) (user_notifications db))
  else raise foreign_key_violation.

Definition insert_wallet_history (rs : list wallet_history_row) (db : database) : database :=
  mk_database (auth_users db) (user_profiles db) (posts db) (user_storylines db)
    (post_views db) (story_views db) (wallet_history db ++ rs) (view_transactions db)
    (story_transactions db) (user_notifications db).

Definition insert_view_transactions (r : view_transactions_row) (db : database) : database :=
  mk_database (auth_users db) (user_profiles db) (posts db) (user_storylines db)
    (post_views db) (story_views db) (wallet_history db) (view_transactions db ++ [r])
    (story_transactions db) (user_notifications db).

(** [story_id uuid REFERENCES user_storylines(id)],
    [uploader_id uuid REFERENCES auth.users(id)],
    [viewer_id uuid REFERENCES auth.users(id)] *)
Definition insert_story_transactions (r : story_transactions_row) (db : database)
    : exec database :=
  if bool_decide (is_Some (user_storylines db !! st_story_id r))
     && bool_decide (st_uploader_id r ∈ auth_users db)
     && bool_decide (st_viewer_id r ∈ auth_users db)
  then
    ok (mk_database (auth_users db) (user_profiles db) (posts db) (user_storylines db)
          (post_views db) (story_views db) (wallet_history db) (view_transactions db)
          (story_transactions db ++ [r]) (user_notifications db))
  else raise foreign_key_violation.

Definition insert_user_notifications (r : user_notifications_row) (db : database) : database :=
  mk_database (auth_users db) (user_profiles db) (posts db) (user_storylines db)
    (post_views db) (story_views db) (wallet_history db) (view_transactions db)
    (story_transactions db) (user_notifications db ++ [r]).

(** [SET star_balance = star_balance - n] *)
Definition set_star_balance_minus (n : option Z) (r : user_profiles_row) : user_profiles_row :=
  mk_user_profiles_row (sql_sub (star_balance r) n) (wallet_balance r) (total_earned r).

(** [coalesce(wallet_balance,0) + a], as the numeric it is before it is
    assigned. *)
Definition wallet_plus (r : user_profiles_row) (a : option numeric) : option numeric :=
  sql_qadd (Some (numeric_of (coalesce (wallet_balance r) (Cents 0)))) a.

(** [SET wallet_balance = coalesce(wallet_balance,0) + a] *)
Definition set_wallet_plus (a : option numeric) (r : user_profiles_row)
    : exec user_profiles_row :=
  let! w := to_decimal_10_2 (wallet_plus r a) in
  ok (mk_user_profiles_row (star_balance r) w (total_earned r)).

(** [SET wallet_balance = coalesce(wallet_balance,0) + a,
        total_earned = coalesce(total_earned,0) + a] *)
Definition set_wallet_and_total_plus (a : option numeric) (r : user_profiles_row)
    : exec user_profiles_row :=
  let! w := to_decimal_10_2 (wallet_plus r a) in
  ok (mk_user_profiles_row (star_balance r) w
        (sql_qadd (Some (coalesce (total_earned r) 0%Q)) a)).

(** [SET view_count = view_count + 1] *)
Definition set_view_count_plus_1 (r : content_row) : content_row :=
  mk_content_row (user_id r) (star_price r) (status r) (sql_add (view_count r) (Some 1)).

(** [SELECT ... FROM t WHERE id = k AND status = st], the key being of the
    type of the id column. *)
Definition select_content `{Countable K} (t : gmap K content_row) (k : K) (st : string)
    : option content_row :=
  match t !! k with
  | Some r => if String.eqb (status r) st then Some r else None
  | None => None
  end.

(** [EXISTS (SELECT 1 FROM post_views WHERE post_id = p AND user_id = v)] *)
Definition post_view_exists (p : text) (v : uuid) (db : database) : bool :=
  existsb (λ r, String.eqb (pv_post_id r) p && bool_decide (pv_user_id r = v))
    (post_views db).

(** [EXISTS (SELECT 1 FROM story_views WHERE story_id = s AND viewer_id = v)] *)
Definition story_view_exists (s : uuid) (v : uuid) (db : database) : bool :=
  existsb (λ r, bool_decide (sv_story_id r = s) && bool_decide (sv_viewer_id r = v))
    (story_views db).

(** [SELECT coalesce(star_balance,0) INTO v FROM user_profiles WHERE id = k] *)
Definition select_star_balance_coalesced (k : uuid) (db : database) : option Z :=
  match user_profiles db !! k with
  | Some r => Some (coalesce (star_balance r) 0)
  | None => None
  end.

(** [SELECT star_balance INTO v FROM user_profiles WHERE id = k] *)
Definition select_star_balance (k : uuid) (db : database) : option Z :=
  match user_profiles db !! k with
  | Some r => star_balance r
  | None => None
  end.

(** ** Migration 20251106230001: NGN earnings *)

Module M20251106.

Definition star_value : numeric := 500%Q.

Definition uploader_share (v_price : Z) : numeric := (inject_Z v_price * star_value * 0.60)%Q.
Definition viewer_share (v_price : Z) : numeric := (inject_Z v_price * star_value * 0.20)%Q.
Definition platform_share (v_price : Z) : numeric := (inject_Z v_price * star_value * 0.20)%Q.

Definition process_post_view (p_post_id : text) (p_viewer_id : uuid) (db : database)
    : exec (json * database) :=
  match select_content (posts db) p_post_id "approved" with
  | None =>
      ok (json_build_object [("success", JBool false); ("error", JText "Post not found")],
          db)
  | Some v_post =>
      let v_uploader := user_id v_post in
      let v_price := coalesce (star_price v_post) 0 in
      if (v_price <=? 0) || bool_decide (v_uploader = p_viewer_id) then
        ok (json_build_object
              [("success", JBool true); ("viewer_earn", JInt 0); ("charged", JBool false)],
            db)
      else
      let v_view_exists := post_view_exists p_post_id p_viewer_id db in
      if v_view_exists then
        ok (json_build_object
              [("success", JBool true); ("viewer_earn", JInt 0); ("charged", JBool false)],
            db)
      else
      let v_viewer_stars := select_star_balance_coalesced p_viewer_id db in
      if sql_true (sql_lt v_viewer_stars (Some v_price)) then
        ok (json_build_object
              [("success", JBool false); ("error", JText "Insufficient stars")], db)
      else
      let db := update_user_profiles (set_star_balance_minus (Some v_price)) p_viewer_id db in
      let! db := update_user_profiles_checked
                   (set_wallet_and_total_plus (Some (uploader_share v_price))) v_uploader db in
      let! db := update_user_profiles_checked
                   (set_wallet_plus (Some (viewer_share v_price))) p_viewer_id db in
      let db := insert_wallet_history
        [ mk_wallet_history_row v_uploader "upload_earn" (uploader_share v_price) "NGN"
            (json_build_object [("post_id", JText p_post_id); ("stars_spent", JInt v_price)]);
          mk_wallet_history_row p_viewer_id "view_earn" (viewer_share v_price) "NGN"
            (json_build_object [("post_id", JText p_post_id); ("stars_spent", JInt v_price)])
        ] db in
      let db := insert_view_transactions
        (mk_view_transactions_row p_post_id p_viewer_id v_uploader v_price
           (uploader_share v_price) (viewer_share v_price) (platform_share v_price)) db in
      ok (json_build_object
            [("success", JBool true); ("viewer_earn", JNum (viewer_share v_price));
             ("charged", JBool true)], db)
  end.

(** [SELECT ... FROM user_storylines WHERE id = p AND status = st] with a
    text [p]: the uuid [id] is compared with a text. *)
Definition select_storyline_by_text (t : gmap uuid content_row) (p : text) (st : string)
    : exec (option content_row) :=
  uuid_eq_text.

(** [EXISTS (SELECT 1 FROM story_views WHERE story_id = p AND viewer_id = v)]
    with a text [p]: the uuid [story_id] is compared with a text. *)
Definition story_view_exists_by_text (p : text) (v : uuid) (db : database) : exec bool :=
  uuid_eq_text.

Definition process_story_view (p_story_id : text) (p_viewer_id : uuid) (db : database)
    : exec (json * database) :=
  let! v_story := select_storyline_by_text (user_storylines db) p_story_id "active" in
  match v_story with
  | None =>
      ok (json_build_object [("success", JBool false); ("error", JText "Story not found")],
          db)
  | Some v_story =>
      let v_uploader := user_id v_story in
      let v_price := coalesce (star_price v_story) 0 in
      if (v_price <=? 0) || bool_decide (v_uploader = p_viewer_id) then
        ok (json_build_object
              [("success", JBool true); ("viewer_earn", JInt 0); ("charged", JBool false)],
            db)
      else
      let! v_view_exists := story_view_exists_by_text p_story_id p_viewer_id db in
      if v_view_exists then
        ok (json_build_object
              [("success", JBool true); ("viewer_earn", JInt 0); ("charged", JBool false)],
            db)
      else
      let v_viewer_stars := select_star_balance_coalesced p_viewer_id db in
      if sql_true (sql_lt v_viewer_stars (Some v_price)) then
        ok (json_build_object
              [("success", JBool false); ("error", JText "Insufficient stars")], db)
      else
      let db := update_user_profiles (set_star_balance_minus (Some v_price)) p_viewer_id db in
      let! story_id := text_to_uuid_column p_story_id in
      let! db := insert_story_views
                   (mk_story_views_row story_id p_viewer_id (Some v_price)) db in
      let! db := update_user_profiles_checked
                   (set_wallet_and_total_plus (Some (uploader_share v_price))) v_uploader db in
      let! db := update_user_profiles_checked
                   (set_wallet_plus (Some (viewer_share v_price))) p_viewer_id db in
      let db := insert_wallet_history
        [ mk_wallet_history_row v_uploader "story_earn" (uploader_share v_price) "NGN"
            (json_build_object [("story_id", JText p_story_id); ("stars_spent", JInt v_price)]);
          mk_wallet_history_row p_viewer_id "story_cashback" (viewer_share v_price) "NGN"
            (json_build_object [("story_id", JText p_story_id); ("stars_spent", JInt v_price)])
        ] db in
      let! db := insert_story_transactions
        (mk_story_transactions_row story_id v_uploader p_viewer_id v_price
           (uploader_share v_price) (viewer_share v_price) (platform_share v_price)) db in
      ok (json_build_object
            [("success", JBool true); ("viewer_earn", JNum (viewer_share v_price));
             ("charged", JBool true)], db)
  end.

End M20251106.

(** ** Migration 20251022023014: the first [process_story_view]

    It takes the story id as a uuid and returns [jsonb]. *)

Module M20251022.

Definition v_star_value : option numeric := Some 500%Q.

Definition earn (v_star_price : option Z) (ratio : numeric) : option numeric :=
  sql_qmul (sql_qmul (inject_Z <$> v_star_price) v_star_value) (Some ratio).

(** The values of an [INSERT INTO story_transactions]: [stars_spent] and the
    three earnings are NOT NULL. *)
Definition story_transactions_values (story_id uploader_id viewer_id : uuid)
    (stars_spent : option Z) (uploader_earn viewer_earn platform_earn : option numeric)
    : exec story_transactions_row :=
  match stars_spent, uploader_earn, viewer_earn, platform_earn with
  | Some s, Some u, Some v, Some p =>
      ok (mk_story_transactions_row story_id uploader_id viewer_id s u v p)
  | _, _, _, _ => raise not_null_violation
  end.

Definition process_story_view (p_story_id : uuid) (p_viewer_id : uuid) (db : database)
    : exec (json * database) :=
  match select_content (user_storylines db) p_story_id "active" with
  | None =>
      ok (json_build_object
            [("success", JBool false); ("error", JText "Story not found")], db)
  | Some v_story =>
      let v_star_price := star_price v_story in
      let v_uploader_id := user_id v_story in
      if story_view_exists p_story_id p_viewer_id db then
        ok (json_build_object [("success", JBool true); ("already_viewed", JBool true)], db)
      else
      if sql_true (sql_eq v_star_price (Some 0)) then
        let! db := insert_story_views
                     (mk_story_views_row p_story_id p_viewer_id (Some 0)) db in
        let db := update_user_storylines set_view_count_plus_1 p_story_id db in
        ok (json_build_object [("success", JBool true); ("free", JBool true)], db)
      else
      let v_viewer_balance := select_star_balance p_viewer_id db in
      if sql_true (sql_lt v_viewer_balance v_star_price) then
        ok (json_build_object
              [("success", JBool false); ("error", JText "Insufficient stars")], db)
      else
      let v_uploader_earn := earn v_star_price 0.60%Q in
      let v_viewer_earn := earn v_star_price 0.20%Q in
      let v_platform_earn := earn v_star_price 0.20%Q in
      let db := update_user_profiles (set_star_balance_minus v_star_price) p_viewer_id db in
      let! db := update_user_profiles_checked (set_wallet_plus v_uploader_earn)
                   v_uploader_id db in
      let! db := update_user_profiles_checked (set_wallet_plus v_viewer_earn)
                   p_viewer_id db in
      let! db := insert_story_views
                   (mk_story_views_row p_story_id p_viewer_id v_star_price) db in
      let! values := story_transactions_values p_story_id v_uploader_id p_viewer_id
                       v_star_price v_uploader_earn v_viewer_earn v_platform_earn in
      let! db := insert_story_transactions values db in
      let db := update_user_storylines set_view_count_plus_1 p_story_id db in
      let db := insert_user_notifications
        (mk_user_notifications_row v_uploader_id "Story View Earned!"
           (format "You earned %s from your story! %s stars spent."
              [jnum v_uploader_earn; jint v_star_price])
           "success" "story_earn"
           (json_build_object
              [("story_id", JText (uuid_text p_story_id));
               ("viewer_id", JText (uuid_text p_viewer_id));
               ("amount", jnum v_uploader_earn); ("stars", jint v_star_price)])) db in
      let db := insert_user_notifications
        (mk_user_notifications_row p_viewer_id "Story Cashback!"
           (format "You earned %s cashback from viewing this story!"
              [jnum v_viewer_earn])
           "success" "story_cashback"
           (json_build_object
              [("story_id", JText (uuid_text p_story_id));
               ("amount", jnum v_viewer_earn)])) db in
      ok (json_build_object
            [("success", JBool true); ("uploader_earn", jnum v_uploader_earn);
             ("viewer_earn", jnum v_viewer_earn)], db)
  end.

End M20251022.

(** ** The ledger operation, as the specification names it

    [recordView] is [process_post_view] on a post and [process_story_view] on
    a story, both as the latest migration defines them and both called with
    the content id as a text. *)

Import M20251106.

Inductive content := Post | Story.

Definition recordView (k : content) : text → uuid → database → exec (json * database) :=
  match k with
  | Post => process_post_view
  | Story => process_story_view
  end.

(** The result a call returns, if it returns. *)
Definition result (x : exec (json * database)) : option json :=
  match x with
  | ok (r, _) => Some r
  | raise _ => None
  end.

(** The database after a call that started in [db]: a raise rolls the call
    back. *)
Definition after (x : exec (json * database)) (db : database) : database :=
  match x with
  | ok (_, db') => db'
  | raise _ => db
  end.

(** The call returned a result that says [charged = true]. *)
Definition charged (x : exec (json * database)) : Prop :=
  match x with
  | ok (r, _) => json_get "charged" r = Some (JBool true)
  | raise _ => False
  end.

(** The row of the content item whose id, written as a text, is [c]. *)
Definition content_row_of (k : content) (c : text) (db : database) : option content_row :=
  match k with
  | Post => posts db !! c
  | Story => user_storylines db !! Uuid c
  end.

Definition not_found (k : content) : json :=
  match k with
  | Post => [("success", JBool false); ("error", JText "Post not found")]
  | Story => [("success", JBool false); ("error", JText "Story not found")]
  end.

Definition insufficient_stars : json :=
  [("success", JBool false); ("error", JText "Insufficient stars")].

Definition not_charged : json :=
  [("success", JBool true); ("viewer_earn", JInt 0); ("charged", JBool false)].

(** The View Records of a pair: the [stars_spent] of each ([post_views] has
    no such column in the procedures, so a post's record carries none). *)
Definition view_records (k : content) (c : text) (v : uuid) (db : database)
    : list (option Z) :=
  match k with
  | Post =>
      (λ _, None) <$>
      List.filter (λ r, String.eqb (pv_post_id r) c && bool_decide (pv_user_id r = v))
        (post_views db)
  | Story =>
      sv_stars_spent <$>
      List.filter (λ r, bool_decide (sv_story_id r = Uuid c) && bool_decide (sv_viewer_id r = v))
        (story_views db)
  end.

(** A Ledger Transaction: stars spent and the owner, viewer and platform
    shares. *)
Record ledger_entry := mk_ledger_entry {
  stars_spent : Z;
  owner_earn : numeric;
  viewer_earn : numeric;
  platform_earn : numeric
}.

Definition of_view_transaction (t : view_transactions_row) : ledger_entry :=
  mk_ledger_entry (vt_star_price t) (vt_uploader_amount t) (vt_viewer_amount t)
    (vt_platform_amount t).

Definition of_story_transaction (t : story_transactions_row) : ledger_entry :=
  mk_ledger_entry (st_stars_spent t) (st_uploader_earn t) (st_viewer_earn t)
    (st_platform_earn t).

(** The Ledger Transactions of a pair. *)
Definition ledger (k : content) (c : text) (v : uuid) (db : database) : list ledger_entry :=
  match k with
  | Post =>
      of_view_transaction <$>
      List.filter (λ t, String.eqb (vt_post_id t) c && bool_decide (vt_viewer_id t = v))
        (view_transactions db)
  | Story =>
      of_story_transaction <$>
      List.filter (λ t, bool_decide (st_story_id t = Uuid c) && bool_decide (st_viewer_id t = v))
        (story_transactions db)
  end.

Definition with_star_price (p : option Z) (r : content_row) : content_row :=
  mk_content_row (user_id r) p (status r) (view_count r).

(** The same database with the price of post [c] replaced. *)
Definition reprice (c : text) (p : option Z) (db : database) : database :=
  mk_database (auth_users db) (user_profiles db) (alter (with_star_price p) c (posts db))
    (user_storylines db) (post_views db) (story_views db) (wallet_history db)
    (view_transactions db) (story_transactions db) (user_notifications db).

(** Every stored star balance is non-negative. *)
Definition stars_nonneg (db : database) : Prop :=
  ∀ u r b, user_profiles db !! u = Some r → star_balance r = Some b → 0 ≤ b.

(** States reachable from [db0] by any sequence of [recordView] calls. *)
Inductive reachable (db0 : database) : database → Prop :=
| reachable_init : reachable db0 db0
| reachable_call k c v db :
    reachable db0 db → reachable db0 (after (recordView k c v db) db).

(** ** Example databases *)

Definition owner : uuid := Uuid "owner".
Definition viewer : uuid := Uuid "viewer".

Definition profile (stars : Z) (wallet : decimal_10_2) : user_profiles_row :=
  mk_user_profiles_row (Some stars) (Some wallet) (Some 0%Q).

(** One owner, one viewer with [stars] stars, both registered, one live item
    [c1] priced [price] in both content tables, nothing viewed yet. *)
Definition example_db (stars : Z) (price : option Z) : database :=
  mk_database
    {[owner; viewer]}
    (<[owner := profile 0 (Cents 0)]> (<[viewer := profile stars (Cents 0)]> ∅))
    (<["c1" := mk_content_row owner price "approved" (Some 0)]> ∅)
    (<[Uuid "c1" := mk_content_row owner price "active" (Some 0)]> ∅)
    [] [] [] [] [] [].

(** ** Vocabulary of the properties *)

Definition earn_type (k : content) : string :=
  match k with Post => "upload_earn" | Story => "story_earn" end.

Definition cashback_type (k : content) : string :=
  match k with Post => "view_earn" | Story => "story_cashback" end.

Definition charged_result (p : Z) : json :=
  [("success", JBool true); ("viewer_earn", JNum (viewer_share p)); ("charged", JBool true)].

(** The conditions under which [process_post_view] reaches its charging
    part. *)
Definition chargeable (c : text) (v : uuid) (row : content_row) (p : Z)
    (db : database) : Prop :=
  posts db !! c = Some row ∧ status row = "approved" ∧
  star_price row = Some p ∧ 0 < p ∧ user_id row ≠ v ∧
  post_view_exists c v db = false ∧
  sql_true (sql_lt (select_star_balance_coalesced v db) (Some p)) = false.

(** A wallet in hundredths, NULL read as 0. *)
Definition wallet_cents (r : user_profiles_row) : Z :=
  cents (coalesce (wallet_balance r) (Cents 0)).

(** The wallet of [u], if [u] has a profile, holds [n] more hundredths. *)
Definition credit_fits (db : database) (u : uuid) (n : Z) : Prop :=
  match user_profiles db !! u with
  | Some r => Z.abs (wallet_cents r + n) < 10 ^ 10
  | None => True
  end.

(** Both credits of a charge at price [p] fit their wallets: 300 NGN a star
    for the owner [u], 100 NGN a star for the viewer [v]. *)
Definition credits_fit (v u : uuid) (p : Z) (db : database) : Prop :=
  credit_fits db u (30000 * p) ∧ credit_fits db v (10000 * p).

(** A profile after [n] hundredths came into its wallet. *)
Definition credit_wallet (n : Z) (r : user_profiles_row) : user_profiles_row :=
  mk_user_profiles_row (star_balance r) (Some (Cents (wallet_cents r + n))) (total_earned r).

(** The same, the amount [a] also added to [total_earned]. *)
Definition credit_wallet_and_total (n : Z) (a : numeric) (r : user_profiles_row)
    : user_profiles_row :=
  mk_user_profiles_row (star_balance r) (Some (Cents (wallet_cents r + n)))
    (Some (coalesce (total_earned r) 0 + a)%Q).

(** The writes of the charging part of [process_post_view], table by
    table. *)
Definition charge_effect (c : text) (v u : uuid) (p : Z) (db db' : database) : Prop :=
  auth_users db' = auth_users db ∧
  user_profiles db' =
    alter (credit_wallet (10000 * p)) v
      (alter (credit_wallet_and_total (30000 * p) (uploader_share p)) u
         (alter (set_star_balance_minus (Some p)) v (user_profiles db))) ∧
  posts db' = posts db ∧
  user_storylines db' = user_storylines db ∧
  user_notifications db' = user_notifications db ∧
  post_views db' = post_views db ∧
  wallet_history db' = wallet_history db ++
    [ mk_wallet_history_row u "upload_earn" (uploader_share p) "NGN"
        [("post_id", JText c); ("stars_spent", JInt p)];
      mk_wallet_history_row v "view_earn" (viewer_share p) "NGN"
        [("post_id", JText c); ("stars_spent", JInt p)] ] ∧
  story_views db' = story_views db ∧
  story_transactions db' = story_transactions db ∧
  view_transactions db' = view_transactions db ++
    [mk_view_transactions_row c v u p (uploader_share p) (viewer_share p)
       (platform_share p)].

(** The six ways a call of [process_post_view] can end: post unavailable,
    free or own post, already viewed, too few stars (all four leave the
    database as it was), a credit that does not fit its wallet (the call
    raises), or a charge. *)
Inductive outcome (c : text) (v : uuid) (db : database)
    : exec (json * database) → Prop :=
| out_not_found :
    select_content (posts db) c "approved" = None →
    outcome c v db (ok (not_found Post, db))
| out_free row :
    select_content (posts db) c "approved" = Some row →
    coalesce (star_price row) 0 ≤ 0 ∨ user_id row = v →
    outcome c v db (ok (not_charged, db))
| out_viewed row :
    select_content (posts db) c "approved" = Some row →
    0 < coalesce (star_price row) 0 → user_id row ≠ v →
    post_view_exists c v db = true →
    outcome c v db (ok (not_charged, db))
| out_insufficient row :
    select_content (posts db) c "approved" = Some row →
    0 < coalesce (star_price row) 0 → user_id row ≠ v →
    post_view_exists c v db = false →
    sql_true (sql_lt (select_star_balance_coalesced v db)
                (Some (coalesce (star_price row) 0))) = true →
    outcome c v db (ok (insufficient_stars, db))
| out_overflow row p :
    chargeable c v row p db → ¬ credits_fit v (user_id row) p db →
    outcome c v db (raise numeric_value_out_of_range)
| out_charged row p db' :
    chargeable c v row p db → credits_fit v (user_id row) p db →
    charge_effect c v (user_id row) p db db' →
    outcome c v db (ok (charged_result p, db')).

Definition charge_entry (p : Z) : ledger_entry :=
  mk_ledger_entry p (uploader_share p) (viewer_share p) (platform_share p).

(** The free path in the words of the specification: the call appends a
    View Record with no stars spent, succeeds uncharged, and touches neither
    the balances nor the ledger. *)
Definition free_view_as_stated (k : content) (c : text) (v : uuid) (db : database) : Prop :=
  let x := recordView k c v db in
  view_records k c v (after x db) = view_records k c v db ++ [Some 0] ∧
  (∃ r, result x = Some r ∧ json_get "success" r = Some (JBool true) ∧
        json_get "charged" r = Some (JBool false)) ∧
  (∀ u, star_balance <$> user_profiles (after x db) !! u =
        star_balance <$> user_profiles db !! u) ∧
  ledger k c v (after x db) = ledger k c v db.

(** The example items, suspended. *)
Definition suspended_db : database :=
  mk_database
    {[owner; viewer]}
    (<[owner := profile 0 (Cents 0)]> (<[viewer := profile 5 (Cents 0)]> ∅))
    (<["c1" := mk_content_row owner (Some 3) "suspended" (Some 0)]> ∅)
    (<[Uuid "c1" := mk_content_row owner (Some 3) "suspended" (Some 0)]> ∅)
    [] [] [] [] [] [].

(** C7 in the words of the specification: a charging call also adds one to
    the item's view counter and inserts two notifications, the first for the
    owner and the second for the viewer. *)
Definition counts_and_notifies_as_stated (k : content) (c : text) (v : uuid)
    (db : database) : Prop :=
  let db' := after (recordView k c v db) db in
  charged (recordView k c v db) →
  view_count <$> content_row_of k c db' =
    (λ row, sql_add (view_count row) (Some 1)) <$> content_row_of k c db ∧
  ∃ row n1 n2,
    content_row_of k c db = Some row ∧
    user_notifications db' = user_notifications db ++ [n1; n2] ∧
    un_user_id n1 = user_id row ∧ un_user_id n2 = v.

(** ** Vocabulary of the further properties *)

(** The key of the constraint [UNIQUE(story_id, viewer_id)] on
    [story_views], row by row.  The inserts above do not check it: that no
    call ever inserts a second row for a pair is proved below. *)
Definition story_pairs (db : database) : list (uuid * uuid) :=
  (λ r, (sv_story_id r, sv_viewer_id r)) <$> story_views db.

(** A call of one of the three procedures. *)
Inductive call :=
| call_post_view (p_post_id : text) (p_viewer_id : uuid)
| call_story_view (p_story_id : text) (p_viewer_id : uuid)
| call_first_story_view (p_story_id : uuid) (p_viewer_id : uuid).

(** The database after a call; a raise rolls the call back. *)
Definition run (cl : call) (db : database) : database :=
  match cl with
  | call_post_view c v => after (process_post_view c v db) db
  | call_story_view c v => after (process_story_view c v db) db
  | call_first_story_view c v => after (M20251022.process_story_view c v db) db
  end.

Definition run_all (cls : list call) (db : database) : database :=
  foldl (λ d cl, run cl d) db cls.

(** The number of View Records of a story. *)
Definition views_of (s : uuid) (db : database) : nat :=
  length (List.filter (λ r, bool_decide (sv_story_id r = s)) (story_views db)).

(** Every story's counter, where it is not NULL, is the number of its View
    Records. *)
Definition view_count_exact (db : database) : Prop :=
  ∀ s row n, user_storylines db !! s = Some row → view_count row = Some n →
    n = Z.of_nat (views_of s db).

(** [CHECK (star_price >= 0 AND star_price <= 5)] on [user_storylines]; a
    NULL price passes. *)
Definition star_price_check (row : content_row) : Prop :=
  match star_price row with
  | Some p => 0 ≤ p ≤ 5
  | None => True
  end.

(** Every pair has at least as many View Records as story Ledger
    Transactions. *)
Definition charges_have_views (db : database) : Prop :=
  ∀ c v, (length (ledger Story c v db) ≤ length (view_records Story c v db))%nat.

(** A wallet or a running total, NULL read as 0. *)
Definition wallet_of (r : user_profiles_row) : numeric :=
  numeric_of (coalesce (wallet_balance r) (Cents 0)).
Definition earned_of (r : user_profiles_row) : numeric := coalesce (total_earned r) 0%Q.

(** Profile [r'] is [r] after money came in and stars went out. *)
Definition money_in_stars_out (r r' : user_profiles_row) : Prop :=
  (wallet_of r <= wallet_of r')%Q ∧ (earned_of r <= earned_of r')%Q ∧
  match star_balance r, star_balance r' with
  | Some b, Some b' => b' ≤ b
  | None, None => True
  | _, _ => False
  end.

(** The three shapes a result of the later procedures can have. *)
Definition error_result (r : json) : Prop :=
  json_get "success" r = Some (JBool false) ∧
  (∃ e, json_get "error" r = Some (JText e)) ∧
  json_get "charged" r = None ∧ json_get "viewer_earn" r = None.

Definition uncharged_result (r : json) : Prop :=
  json_get "success" r = Some (JBool true) ∧
  json_get "charged" r = Some (JBool false) ∧
  json_get "viewer_earn" r = Some (JInt 0) ∧ json_get "error" r = None.

Definition paid_result (r : json) (p : Z) : Prop :=
  json_get "success" r = Some (JBool true) ∧
  json_get "charged" r = Some (JBool true) ∧
  json_get "viewer_earn" r = Some (JNum (viewer_share p)) ∧ json_get "error" r = None.

(** Both credits of the first [process_story_view] fit: the owner's, and
    then the viewer's, who may be the owner. *)
Definition first_credits_fit (v u : uuid) (p : Z) (db : database) : Prop :=
  credit_fits db u (30000 * p) ∧
  credit_fits db v (if decide (u = v) then 40000 * p else 10000 * p).

(** The writes of the free path of the first [process_story_view]. *)
Definition first_free_effect (c v : uuid) (db db' : database) : Prop :=
  auth_users db' = auth_users db ∧
  user_profiles db' = user_profiles db ∧
  posts db' = posts db ∧
  user_storylines db' = alter set_view_count_plus_1 c (user_storylines db) ∧
  post_views db' = post_views db ∧
  wallet_history db' = wallet_history db ∧
  view_transactions db' = view_transactions db ∧
  story_views db' = story_views db ++ [mk_story_views_row c v (Some 0)] ∧
  story_transactions db' = story_transactions db ∧
  user_notifications db' = user_notifications db.

(** The writes of the charging part of the first [process_story_view]. *)
Definition first_charge_effect (c v u : uuid) (p : Z) (db db' : database) : Prop :=
  auth_users db' = auth_users db ∧
  user_profiles db' =
    alter (credit_wallet (10000 * p)) v
      (alter (credit_wallet (30000 * p)) u
         (alter (set_star_balance_minus (Some p)) v (user_profiles db))) ∧
  posts db' = posts db ∧
  user_storylines db' = alter set_view_count_plus_1 c (user_storylines db) ∧
  post_views db' = post_views db ∧
  wallet_history db' = wallet_history db ∧
  view_transactions db' = view_transactions db ∧
  story_views db' = story_views db ++ [mk_story_views_row c v (Some p)] ∧
  story_transactions db' = story_transactions db ++
    [mk_story_transactions_row c u v p (inject_Z p * 500 * 0.60)%Q
       (inject_Z p * 500 * 0.20)%Q (inject_Z p * 500 * 0.20)%Q] ∧
  ∃ n1 n2, user_notifications db' = user_notifications db ++ [n1; n2] ∧
    un_user_id n1 = u ∧ un_notification_category n1 = "story_earn" ∧
    un_user_id n2 = v ∧ un_notification_category n2 = "story_cashback".

Definition first_already_viewed : json :=
  [("success", JBool true); ("already_viewed", JBool true)].

Definition first_free : json := [("success", JBool true); ("free", JBool true)].

Definition first_paid (p : Z) : json :=
  [("success", JBool true); ("uploader_earn", JNum (inject_Z p * 500 * 0.60)%Q);
   ("viewer_earn", JNum (inject_Z p * 500 * 0.20)%Q)].

(** The ways a call of the first [process_story_view] can end: story
    unavailable, already viewed, free, too few stars, a raise, or a
    charge. *)
Inductive first_outcome (c : uuid) (v : uuid) (db : database)
    : exec (json * database) → Prop :=
| first_out_not_found :
    select_content (user_storylines db) c "active" = None →
    first_outcome c v db (ok (not_found Story, db))
| first_out_viewed row :
    select_content (user_storylines db) c "active" = Some row →
    story_view_exists c v db = true →
    first_outcome c v db (ok (first_already_viewed, db))
| first_out_free row db' :
    select_content (user_storylines db) c "active" = Some row →
    story_view_exists c v db = false →
    star_price row = Some 0 →
    v ∈ auth_users db →
    first_free_effect c v db db' →
    first_outcome c v db (ok (first_free, db'))
| first_out_insufficient row p b :
    select_content (user_storylines db) c "active" = Some row →
    story_view_exists c v db = false →
    star_price row = Some p → p ≠ 0 →
    select_star_balance v db = Some b → b < p →
    first_outcome c v db (ok (insufficient_stars, db))
| first_out_raise row e :
    select_content (user_storylines db) c "active" = Some row →
    story_view_exists c v db = false →
    first_outcome c v db (raise e)
| first_out_charged row p db' :
    select_content (user_storylines db) c "active" = Some row →
    story_view_exists c v db = false →
    star_price row = Some p → p ≠ 0 →
    sql_true (sql_lt (select_star_balance v db) (Some p)) = false →
    v ∈ auth_users db → user_id row ∈ auth_users db →
    first_credits_fit v (user_id row) p db →
    first_charge_effect c v (user_id row) p db db' →
    first_outcome c v db (ok (first_paid p, db')).

(** ** The media picker of the post form (CreatePost.tsx)

    [handleMediaChange] and [removeMedia] of the [CreatePost] component, over
    the two pieces of component state they write.  One handler runs per
    render, so the [mediaFiles] a handler reads and the [prev] its updaters
    receive are the same list.  [URL.createObjectURL] belongs to the
    browser and is a parameter, [URL.revokeObjectURL] frees a browser
    resource and leaves the state alone; toasts are returned in the order
    raised. *)

Module CreatePost.

Record File := mk_File {
  file_name : string;
  file_type : string;
  file_size : Z
}.

Record toast := mk_toast {
  title : string;
  description : string;
  variant : string
}.

Record state := mk_state {
  mediaFiles : list File;
  mediaPreviews : list string
}.

Definition startsWith (s : string) (searchString : string) : bool :=
  String.prefix searchString s.

Definition maxSize (file : File) : Z :=
  if startsWith (file_type file) "video/" then 500 * 1024 * 1024 else 20 * 1024 * 1024.

(** The callback of [files.filter]: its verdict and the toast it raises. *)
Definition validFile (file : File) : bool * list toast :=
  if file_size file >? maxSize file then
    (false,
     [mk_toast "File too large"
        (file_name file ++ " is larger than " ++
         (if startsWith (file_type file) "video/" then "500MB" else "20MB"))
        "destructive"])
  else
    (startsWith (file_type file) "image/" || startsWith (file_type file) "video/", []).

(** [array.filter((x, i) => f(x, i))] *)
Fixpoint filter_from {A} (f : A → Z → bool) (i : Z) (l : list A) : list A :=
  match l with
  | [] => []
  | x :: l' => if f x i then x :: filter_from f (i + 1) l' else filter_from f (i + 1) l'
  end.

Definition js_filter {A} (f : A → Z → bool) (l : list A) : list A := filter_from f 0 l.

Section handlers.

Variable createObjectURL : File → string.

Definition handleMediaChange (files : list File) (st : state) : state * list toast :=
  let validFiles := List.filter (λ file, (validFile file).1) files in
  let toasts := flat_map (λ file, (validFile file).2) files in
  if Z.of_nat (length validFiles) + Z.of_nat (length (mediaFiles st)) >? 3 then
    (st,
     toasts ++
     [mk_toast "Too many files" "You can only upload up to 3 media files per post"
        "destructive"])
  else
    (mk_state (mediaFiles st ++ validFiles)
       (mediaPreviews st ++ map createObjectURL validFiles),
     toasts).

Definition removeMedia (index : Z) (st : state) : state :=
  mk_state (js_filter (λ _ i, negb (i =? index)) (mediaFiles st))
    (js_filter (λ _ i, negb (i =? index)) (mediaPreviews st)).

(** What the user does with the picker. *)
Inductive event :=
| select (files : list File)
| remove (index : Z).

Definition handle (st : state) (e : event) : state :=
  match e with
  | select files => (handleMediaChange files st).1
  | remove index => removeMedia index st
  end.

End handlers.

(** The form opens with no media. *)
Definition initial : state := mk_state [] [].

(** A file the picker may hold: an image or a video within its size limit. *)
Definition acceptable (file : File) : Prop :=
  (startsWith (file_type file) "image/" = true ∨ startsWith (file_type file) "video/" = true) ∧
  file_size file ≤ maxSize file.

(** What the picker keeps: at most three files, one preview per file, and
    only acceptable files. *)
Definition picker_ok (st : state) : Prop :=
  (length (mediaFiles st) ≤ 3)%nat ∧
  length (mediaPreviews st) = length (mediaFiles st) ∧
  Forall acceptable (mediaFiles st).

End CreatePost.

(** ** The likes of the feed (Feed component)

    The grouping of the fetched likes by post in [fetchPosts], and the two
    readers [isPostLiked] and [getUsernamesWhoLiked].  A JavaScript object
    used as a lookup table is the finite map of its own properties, read
    through [js_get]: a key the object does not own is looked up in
    [Object.prototype].  [user] is the id of the signed-in user, if any. *)

Module Feed.

Record UserProfile := mk_UserProfile {
  up_id : string;
  up_username : string;
  up_avatar_url : string;
  up_vip : bool
}.

Record PostLike := mk_PostLike {
  pl_id : string;
  pl_user_id : string;
  pl_post_id : string
}.

(** The names every object inherits from [Object.prototype]: eleven
    functions and the accessor [__proto__]. *)
Definition Object_prototype : list string :=
  ["constructor"; "__defineGetter__"; "__defineSetter__"; "hasOwnProperty";
   "__lookupGetter__"; "__lookupSetter__"; "isPrototypeOf"; "propertyIsEnumerable";
   "toString"; "valueOf"; "__proto__"; "toLocaleString"].

(** What [obj[key]] evaluates to: an own property, something inherited (a
    function or the prototype itself, truthy and with none of the
    properties the code asks for) or [undefined]. *)
Inductive property (A : Type) :=
| own (a : A)
| inherited
| undefined.

Arguments own {A} a.
Arguments inherited {A}.
Arguments undefined {A}.

Definition js_get {A} (obj : gmap string A) (key : string) : property A :=
  match obj !! key with
  | Some a => own a
  | None => if bool_decide (key ∈ Object_prototype) then inherited else undefined
  end.

(** A handler returns or throws a [TypeError]. *)
Inductive completion (A : Type) :=
| normal (a : A)
| TypeError.

Arguments normal {A} a.
Arguments TypeError {A}.

(** The body of [likesData?.forEach(like => ...)]: an array is filed under
    the key when the lookup is falsy, then [push] is called on what the
    lookup gives. *)
Definition group_like (likesLookup : gmap string (list PostLike)) (like : PostLike)
    : completion (gmap string (list PostLike)) :=
  let likesLookup :=
    match js_get likesLookup (pl_post_id like) with
    | undefined => <[pl_post_id like := []]> likesLookup
    | _ => likesLookup
    end in
  match js_get likesLookup (pl_post_id like) with
  | own likes => normal (<[pl_post_id like := likes ++ [like]]> likesLookup)
  | _ => TypeError
  end.

(** [forEach] stops at the first like whose callback throws. *)
Fixpoint forEach_group_like (likesLookup : gmap string (list PostLike))
    (likesData : list PostLike) : completion (gmap string (list PostLike)) :=
  match likesData with
  | [] => normal likesLookup
  | like :: likesData =>
      match group_like likesLookup like with
      | normal likesLookup => forEach_group_like likesLookup likesData
      | TypeError => TypeError
      end
  end.

Definition likesLookup (likesData : list PostLike)
    : completion (gmap string (list PostLike)) :=
  forEach_group_like ∅ likesData.

(** [Boolean(s)] for a string: false only for the empty string. *)
Definition Boolean (s : string) : bool := negb (String.eqb s "").

Definition isPostLiked (user : option string) (postLikes : gmap string (list PostLike))
    (postId : string) : completion bool :=
  match user with
  | None => normal false
  | Some user_id =>
      match js_get postLikes postId with
      | own postLikesList =>
          normal (existsb (λ like, String.eqb (pl_user_id like) user_id) postLikesList)
      | inherited => TypeError
      | undefined => normal (existsb (λ like, String.eqb (pl_user_id like) user_id) [])
      end
  end.

(** [users[like.user_id]?.username || 'Unknown'] *)
Definition username_or_Unknown (users : gmap string UserProfile) (like : PostLike) : string :=
  match js_get users (pl_user_id like) with
  | own u => if Boolean (up_username u) then up_username u else "Unknown"
  | inherited => "Unknown"
  | undefined => "Unknown"
  end.

Definition getUsernamesWhoLiked (users : gmap string UserProfile)
    (postLikes : gmap string (list PostLike)) (postId : string) : completion (list string) :=
  match js_get postLikes postId with
  | own postLikesList =>
      normal (List.filter Boolean (map (username_or_Unknown users) postLikesList))
  | inherited => TypeError
  | undefined => normal (List.filter Boolean (map (username_or_Unknown users) []))
  end.

End Feed.

(** ** Amounts in hundredths *)

(** A numeric that is a whole number of hundredths rounds to that number. *)
Lemma round_hundredths_exact (q : numeric) (z : Z) :
  (q == z # 100)%Q → round_hundredths q = z.
Proof.
  unfold Qeq, round_hundredths. cbn [Qnum Qden]. intros H.
  set (d := Z.pos (Qden q)) in *. assert (0 < d) as Hd by (unfold d; lia).
  change (Z.pos 100) with 100 in H. rewrite H.
  destruct (0 <=? z * d) eqn:E.
  - apply Z.leb_le in E. symmetry. apply (Z.div_unique_pos _ _ z d); nia.
  - apply Z.leb_gt in E.
    assert ((2 * - (z * d) + d) / (2 * d) = - z) as ->; [|lia].
    symmetry. apply (Z.div_unique_pos _ _ (- z) d); nia.
Qed.

Lemma numeric_of_plus_uploader_share (w : decimal_10_2) (p : Z) :
  (numeric_of w + uploader_share p == (cents w + 30000 * p) # 100)%Q.
Proof.
  unfold numeric_of, uploader_share, star_value, Qeq. cbn. lia.
Qed.

Lemma numeric_of_plus_viewer_share (w : decimal_10_2) (p : Z) :
  (numeric_of w + viewer_share p == (cents w + 10000 * p) # 100)%Q.
Proof.
  unfold numeric_of, viewer_share, star_value, Qeq. cbn. lia.
Qed.

Lemma fits_10_2_true (z : Z) : fits_10_2 z = true ↔ Z.abs z < 10 ^ 10.
Proof. unfold fits_10_2. apply Z.ltb_lt. Qed.

Lemma fits_10_2_false (z : Z) : fits_10_2 z = false ↔ ¬ Z.abs z < 10 ^ 10.
Proof. unfold fits_10_2. rewrite Z.ltb_ge. lia. Qed.

(** A credit of a whole number [n] of hundredths: the wallet holds [n]
    more, or the statement raises. *)
Lemma to_decimal_10_2_exact (r : user_profiles_row) (a : numeric) (n : Z) :
  (wallet_of r + a == (wallet_cents r + n) # 100)%Q →
  to_decimal_10_2 (wallet_plus r (Some a)) =
    if fits_10_2 (wallet_cents r + n) then ok (Some (Cents (wallet_cents r + n)))
    else raise numeric_value_out_of_range.
Proof.
  intros H. unfold wallet_of in H. unfold wallet_plus, to_decimal_10_2, sql_qadd, sql_binop.
  by rewrite (round_hundredths_exact _ _ H).
Qed.

Lemma set_wallet_and_total_plus_uploader_share (r : user_profiles_row) (p : Z) :
  set_wallet_and_total_plus (Some (uploader_share p)) r =
    if fits_10_2 (wallet_cents r + 30000 * p)
    then ok (credit_wallet_and_total (30000 * p) (uploader_share p) r)
    else raise numeric_value_out_of_range.
Proof.
  unfold set_wallet_and_total_plus.
  rewrite (to_decimal_10_2_exact r _ (30000 * p))
    by apply numeric_of_plus_uploader_share.
  by destruct (fits_10_2 _).
Qed.

Lemma set_wallet_plus_viewer_share (r : user_profiles_row) (p : Z) :
  set_wallet_plus (Some (viewer_share p)) r =
    if fits_10_2 (wallet_cents r + 10000 * p)
    then ok (credit_wallet (10000 * p) r)
    else raise numeric_value_out_of_range.
Proof.
  unfold set_wallet_plus.
  rewrite (to_decimal_10_2_exact r _ (10000 * p))
    by apply numeric_of_plus_viewer_share.
  by destruct (fits_10_2 _).
Qed.

(** ** Checked updates *)

Lemma alter_const_lookup {A} (m : gmap uuid A) (i : uuid) (f : A → A) (r : A) :
  m !! i = Some r → alter (λ _, f r) i m = alter f i m.
Proof.
  intros H. apply map_eq. intros j. rewrite !lookup_alter.
  destruct (decide (i = j)) as [->|]; [|done]. by rewrite H.
Qed.

Lemma alter_absent {A} (m : gmap uuid A) (i : uuid) (f : A → A) :
  m !! i = None → alter f i m = m.
Proof.
  intros H. apply map_eq. intros j. rewrite lookup_alter.
  destruct (decide (i = j)) as [->|]; [|done]. by rewrite H.
Qed.

Lemma update_user_profiles_alter f g id db :
  (∀ r, user_profiles db !! id = Some r → f r = g r) →
  update_user_profiles f id db = update_user_profiles g id db.
Proof.
  intros H. unfold update_user_profiles. f_equal.
  apply map_eq. intros j. rewrite !lookup_alter.
  destruct (decide (id = j)) as [<-|]; [|done].
  destruct (user_profiles db !! id) as [r|] eqn:E; [|done]. cbn. f_equal. by apply H.
Qed.

Lemma credit_fits_spec db u n :
  credit_fits db u n ↔
  ∀ r, user_profiles db !! u = Some r → Z.abs (wallet_cents r + n) < 10 ^ 10.
Proof.
  unfold credit_fits. destruct (user_profiles db !! u) as [r|].
  - split; [by intros H ? [= <-]|intros H; by apply H].
  - split; [by intros _ ? [=]|done].
Qed.

(** A checked update whose new row is [f r] when the credit fits, and which
    raises otherwise. *)
Lemma update_user_profiles_checked_fits set (f : user_profiles_row → user_profiles_row)
    (n : Z) id db :
  (∀ r, set r = if fits_10_2 (wallet_cents r + n) then ok (f r)
                else raise numeric_value_out_of_range) →
  credit_fits db id n →
  update_user_profiles_checked set id db = ok (update_user_profiles f id db).
Proof.
  intros Hset Hfit. unfold update_user_profiles_checked.
  destruct (user_profiles db !! id) as [r|] eqn:E.
  - rewrite Hset.
    rewrite (proj2 (fits_10_2_true _) (proj1 (credit_fits_spec _ _ _) Hfit r E)).
    cbn. f_equal.
    apply update_user_profiles_alter. intros r' Hr'. congruence.
  - f_equal. unfold update_user_profiles. rewrite alter_absent by done. by destruct db.
Qed.

Lemma update_user_profiles_checked_overflow set (f : user_profiles_row → user_profiles_row)
    (n : Z) id db :
  (∀ r, set r = if fits_10_2 (wallet_cents r + n) then ok (f r)
                else raise numeric_value_out_of_range) →
  ¬ credit_fits db id n →
  update_user_profiles_checked set id db = raise numeric_value_out_of_range.
Proof.
  intros Hset Hfit. unfold update_user_profiles_checked.
  destruct (user_profiles db !! id) as [r|] eqn:E.
  - rewrite Hset. destruct (fits_10_2 (wallet_cents r + n)) eqn:F; [|done].
    destruct Hfit. apply credit_fits_spec. intros r' Hr'. apply fits_10_2_true. congruence.
  - destruct Hfit. apply credit_fits_spec. intros r' Hr'. congruence.
Qed.

Lemma credit_fits_dec db id n : credit_fits db id n ∨ ¬ credit_fits db id n.
Proof.
  unfold credit_fits. destruct (user_profiles db !! id) as [r|]; [|by left].
  destruct (decide (Z.abs (wallet_cents r + n) < 10 ^ 10)); [by left|by right].
Qed.

(** ** What a call of [process_post_view] does *)

Lemma eqb_string_true (a b : string) : String.eqb a b = true ↔ a = b.
Proof. apply String.eqb_eq. Qed.

Lemma eqb_string_false (a b : string) : String.eqb a b = false ↔ a ≠ b.
Proof. apply String.eqb_neq. Qed.

Lemma select_content_Some `{Countable K} (t : gmap K content_row) k st row :
  select_content t k st = Some row ↔ t !! k = Some row ∧ status row = st.
Proof.
  unfold select_content. destruct (t !! k) as [r|]; [|split; [done|intros [[=] _]]].
  destruct (String.eqb (status r) st) eqn:E.
  - apply eqb_string_true in E. split; [intros [= <-]; done|intros [[= <-] _]; done].
  - apply eqb_string_false in E. split; [done|intros [[= <-] ?]; done].
Qed.

Lemma select_content_None `{Countable K} (t : gmap K content_row) k st :
  select_content t k st = None ↔ ∀ row, t !! k = Some row → status row ≠ st.
Proof.
  unfold select_content. destruct (t !! k) as [r|]; [|split; [intros _ ? [=]|done]].
  destruct (String.eqb (status r) st) eqn:E.
  - apply eqb_string_true in E. split; [done|intros Hr; by destruct (Hr r)].
  - apply eqb_string_false in E. split; [intros _ ? [= <-]; done|done].
Qed.

Lemma credit_fits_star_update db v p u n :
  credit_fits (update_user_profiles (set_star_balance_minus p) v db) u n ↔ credit_fits db u n.
Proof.
  rewrite !credit_fits_spec. cbn [update_user_profiles user_profiles]. split.
  - intros Hfit r Hr. destruct (decide (v = u)) as [->|Hne].
    + apply (Hfit (set_star_balance_minus p r)). by rewrite lookup_alter_eq, Hr.
    + apply Hfit. by rewrite lookup_alter_ne.
  - intros Hfit r Hr. rewrite lookup_alter in Hr.
    destruct (decide (v = u)) as [->|Hne]; [|by apply Hfit].
    destruct (user_profiles db !! u) as [r0|]; cbn in Hr; [|done].
    injection Hr as <-. exact (Hfit r0 eq_refl).
Qed.

Lemma credit_fits_other db f u v n :
  u ≠ v → credit_fits (update_user_profiles f u db) v n ↔ credit_fits db v n.
Proof.
  intros Hne. unfold credit_fits. cbn [update_user_profiles user_profiles].
  by rewrite lookup_alter_ne.
Qed.

Lemma priced_third_party_guard row v :
  0 < coalesce (star_price row) 0 → user_id row ≠ v →
  (coalesce (star_price row) 0 <=? 0) || bool_decide (user_id row = v) = false.
Proof.
  intros Hp Hu. apply orb_false_iff. split; [by apply Z.leb_gt|by apply bool_decide_eq_false].
Qed.

(** The four returns that write nothing, read forwards. *)

Lemma process_post_view_not_found c v db :
  select_content (posts db) c "approved" = None →
  process_post_view c v db = ok (not_found Post, db).
Proof. intros Hsel. unfold process_post_view. by rewrite Hsel. Qed.

Lemma process_post_view_free c v db row :
  select_content (posts db) c "approved" = Some row →
  coalesce (star_price row) 0 ≤ 0 ∨ user_id row = v →
  process_post_view c v db = ok (not_charged, db).
Proof.
  intros Hsel Hfree.
  assert ((coalesce (star_price row) 0 <=? 0) || bool_decide (user_id row = v) = true) as Hg.
  { apply orb_true_iff. destruct Hfree as [Hp|Hu]; [left; by apply Z.leb_le|right].
    by apply bool_decide_eq_true. }
  unfold process_post_view. by rewrite Hsel, Hg.
Qed.

Lemma process_post_view_viewed c v db row :
  select_content (posts db) c "approved" = Some row →
  0 < coalesce (star_price row) 0 → user_id row ≠ v →
  post_view_exists c v db = true →
  process_post_view c v db = ok (not_charged, db).
Proof.
  intros Hsel Hp Hu Hv. pose proof (priced_third_party_guard row v Hp Hu) as Hg.
  unfold process_post_view. by rewrite Hsel, Hg, Hv.
Qed.

Lemma process_post_view_insufficient c v db row :
  select_content (posts db) c "approved" = Some row →
  0 < coalesce (star_price row) 0 → user_id row ≠ v →
  post_view_exists c v db = false →
  sql_true (sql_lt (select_star_balance_coalesced v db)
              (Some (coalesce (star_price row) 0))) = true →
  process_post_view c v db = ok (insufficient_stars, db).
Proof.
  intros Hsel Hp Hu Hv Hb. pose proof (priced_third_party_guard row v Hp Hu) as Hg.
  unfold process_post_view. by rewrite Hsel, Hg, Hv, Hb.
Qed.

(** The charging part, when both credits fit. *)
Lemma process_post_view_charged c v db row p :
  chargeable c v row p db → credits_fit v (user_id row) p db →
  ∃ db', process_post_view c v db = ok (charged_result p, db') ∧
         charge_effect c v (user_id row) p db db'.
Proof.
  intros (Hrow & Hst & Hprice & Hp & Hu & Hv & Hb) (Hfo & Hfv).
  assert (select_content (posts db) c "approved" = Some row) as Hsel
    by by apply select_content_Some.
  assert (0 < coalesce (star_price row) 0) as Hp' by by rewrite Hprice.
  pose proof (priced_third_party_guard row v Hp' Hu) as Hg.
  unfold process_post_view.
  rewrite Hsel, Hg, Hv, Hprice. cbn [coalesce from_option id]. rewrite Hb.
  rewrite (update_user_profiles_checked_fits _
             (credit_wallet_and_total (30000 * p) (uploader_share p)) (30000 * p));
    [|intros r; apply set_wallet_and_total_plus_uploader_share
     |by apply credit_fits_star_update].
  cbn [bind].
  rewrite (update_user_profiles_checked_fits _ (credit_wallet (10000 * p)) (10000 * p));
    [|intros r; apply set_wallet_plus_viewer_share
     |by apply credit_fits_other, credit_fits_star_update].
  cbn [bind]. eexists. split; [reflexivity|]. by repeat split.
Qed.

(** The charging part, when a credit does not fit. *)
Lemma process_post_view_overflow c v db row p :
  chargeable c v row p db → ¬ credits_fit v (user_id row) p db →
  process_post_view c v db = raise numeric_value_out_of_range.
Proof.
  intros (Hrow & Hst & Hprice & Hp & Hu & Hv & Hb) Hfit.
  assert (select_content (posts db) c "approved" = Some row) as Hsel
    by by apply select_content_Some.
  assert (0 < coalesce (star_price row) 0) as Hp' by by rewrite Hprice.
  pose proof (priced_third_party_guard row v Hp' Hu) as Hg.
  unfold process_post_view.
  rewrite Hsel, Hg, Hv, Hprice. cbn [coalesce from_option id]. rewrite Hb.
  destruct (credit_fits_dec db (user_id row) (30000 * p)) as [Hfo|Hfo].
  - rewrite (update_user_profiles_checked_fits _
               (credit_wallet_and_total (30000 * p) (uploader_share p)) (30000 * p));
      [|intros r; apply set_wallet_and_total_plus_uploader_share
       |by apply credit_fits_star_update].
    cbn [bind].
    rewrite (update_user_profiles_checked_overflow _ (credit_wallet (10000 * p))
               (10000 * p));
      [done|intros r; apply set_wallet_plus_viewer_share|].
    intros Hfv. apply Hfit. split; [done|].
    by apply credit_fits_other, credit_fits_star_update in Hfv.
  - rewrite (update_user_profiles_checked_overflow _
               (credit_wallet_and_total (30000 * p) (uploader_share p)) (30000 * p));
      [done|intros r; apply set_wallet_and_total_plus_uploader_share|].
    intros Hfo'. by apply credit_fits_star_update in Hfo'.
Qed.

Lemma credits_fit_dec v u p db : credits_fit v u p db ∨ ¬ credits_fit v u p db.
Proof.
  unfold credits_fit.
  destruct (credit_fits_dec db u (30000 * p)), (credit_fits_dec db v (10000 * p)); tauto.
Qed.

Lemma process_post_view_outcome c v db : outcome c v db (process_post_view c v db).
Proof.
  destruct (select_content (posts db) c "approved") as [row|] eqn:Hsel;
    [|rewrite process_post_view_not_found by done; by apply out_not_found].
  destruct (decide (coalesce (star_price row) 0 ≤ 0)) as [Hp|Hp].
  { rewrite (process_post_view_free c v db row) by auto. eapply out_free; eauto. }
  destruct (decide (user_id row = v)) as [Hu|Hu].
  { rewrite (process_post_view_free c v db row) by auto. eapply out_free; eauto. }
  destruct (post_view_exists c v db) eqn:Hv.
  { rewrite (process_post_view_viewed c v db row) by (done || lia).
    eapply out_viewed; eauto. lia. }
  destruct (sql_true (sql_lt (select_star_balance_coalesced v db)
                        (Some (coalesce (star_price row) 0)))) eqn:Hb.
  { rewrite (process_post_view_insufficient c v db row) by (done || lia).
    eapply out_insufficient; eauto. lia. }
  destruct (star_price row) as [p|] eqn:Hprice; cbn [coalesce from_option id] in *; [|lia].
  apply select_content_Some in Hsel as [Hrow Hst].
  assert (chargeable c v row p db) as Hc by (repeat split; done || lia).
  destruct (credits_fit_dec v (user_id row) p db) as [Hfit|Hfit].
  - destruct (process_post_view_charged c v db row p Hc Hfit) as (db' & -> & He).
    by eapply out_charged.
  - rewrite (process_post_view_overflow c v db row p Hc Hfit). by eapply out_overflow.
Qed.

(** [process_story_view] as migration 20251106 defines it raises on every
    call: its first statement compares the uuid [id] with the text
    [p_story_id]. *)
Lemma process_story_view_raises c v db :
  process_story_view c v db = raise undefined_function.
Proof. reflexivity. Qed.

(** Only the charging return of [process_post_view] says [charged]. *)
Lemma charged_recordView k c v db :
  charged (recordView k c v db) →
  k = Post ∧
  ∃ row p db', chargeable c v row p db ∧ credits_fit v (user_id row) p db ∧
    charge_effect c v (user_id row) p db db' ∧
    recordView k c v db = ok (charged_result p, db').
Proof.
  destruct k; cbn [recordView]; [|by rewrite process_story_view_raises].
  intros Hch. split; [done|].
  destruct (process_post_view_outcome c v db)
    as [Hsel|row Hsel Hfree|row Hsel Hp Hu Hv|row Hsel Hp Hu Hv Hb|row p Hc Hfit
       |row p db' Hc Hfit He];
    try discriminate Hch; [done|].
  by exists row, p, db'.
Qed.

Lemma not_charged_recordView k c v db :
  ¬ charged (recordView k c v db) → after (recordView k c v db) db = db.
Proof.
  destruct k; cbn [recordView]; [|by rewrite process_story_view_raises].
  destruct (process_post_view_outcome c v db)
    as [Hsel|row Hsel Hfree|row Hsel Hp Hu Hv|row Hsel Hp Hu Hv Hb|row p Hc Hfit
       |row p db' Hc Hfit He]; try done.
Qed.

(** From [Hch : charged (recordView k c v db)]: the row, the price, the
    database after, the conditions [Hc], the writes [He] and the call's
    value [Hr]; [k] becomes [Post]. *)
Ltac charged_inv_as Hch row p db' Hc He Hr :=
  match type of Hch with
  | charged (recordView ?k ?c ?v ?db) =>
      let Hk := fresh "Hk" in
      destruct (charged_recordView k c v db Hch)
        as (Hk & row & p & db' & Hc & _ & He & Hr);
      try subst k; rewrite ?Hr; cbn [after result charged]
  end.

(** ** View Records and Ledger Transactions after a charge *)

Lemma post_pair_refl (c : text) (v : uuid) : String.eqb c c && bool_decide (v = v) = true.
Proof. by rewrite String.eqb_refl, bool_decide_eq_true_2. Qed.

Lemma uuid_pair_refl (c v : uuid) : bool_decide (c = c) && bool_decide (v = v) = true.
Proof. by rewrite !bool_decide_eq_true_2. Qed.

Lemma charge_effect_ledger c v u p db db' :
  charge_effect c v u p db db' →
  ledger Post c v db' = ledger Post c v db ++ [charge_entry p].
Proof.
  intros (_ & _ & _ & _ & _ & _ & _ & _ & _ & H). cbn [ledger].
  rewrite H, List.filter_app, fmap_app. cbn [List.filter].
  cbn [vt_post_id vt_viewer_id]. by rewrite post_pair_refl.
Qed.

Lemma charge_effect_view_records c v u p db db' :
  charge_effect c v u p db db' →
  view_records Post c v db' = view_records Post c v db.
Proof. intros (_ & _ & _ & _ & _ & H & _). cbn [view_records]. by rewrite H. Qed.

Lemma charge_effect_story_tables k c v c0 v0 u p db db' :
  charge_effect c0 v0 u p db db' →
  content_row_of k c db' = content_row_of k c db ∧
  ledger Story c v db' = ledger Story c v db ∧
  view_records Story c v db' = view_records Story c v db.
Proof.
  intros (_ & _ & Hp & Hs & _ & _ & _ & Hsv & Hst & _).
  destruct k; cbn [content_row_of ledger view_records]; by rewrite ?Hp, ?Hs, ?Hsv, ?Hst.
Qed.

Lemma filter_existsb_false {A} (f : A → bool) (l : list A) :
  existsb f l = false → List.filter f l = [].
Proof.
  induction l as [|x l IH]; cbn; [done|].
  destruct (f x); cbn; [done|]. exact IH.
Qed.

(** ** Star balances after a charge *)

Lemma charge_effect_profile c v u p db db' w r' :
  charge_effect c v u p db db' →
  user_profiles db' !! w = Some r' →
  ∃ r, user_profiles db !! w = Some r ∧
       star_balance r' =
         if decide (v = w) then sql_sub (star_balance r) (Some p) else star_balance r.
Proof.
  intros (_ & Hprof & _) Hw. rewrite Hprof in Hw.
  destruct (decide (v = w)) as [->|Hvw].
  - rewrite lookup_alter_eq in Hw.
    destruct (decide (u = w)) as [->|Huw];
      [rewrite lookup_alter_eq in Hw|rewrite lookup_alter_ne in Hw by done];
      rewrite lookup_alter_eq in Hw;
      (destruct (user_profiles db !! w) as [r|]; [|done]);
      injection Hw as <-; by exists r.
  - rewrite lookup_alter_ne in Hw by done.
    destruct (decide (u = w)) as [->|Huw];
      [rewrite lookup_alter_eq in Hw|rewrite lookup_alter_ne in Hw by done];
      rewrite lookup_alter_ne in Hw by done;
      (destruct (user_profiles db !! w) as [r|]; [|done]);
      injection Hw as <-; by exists r.
Qed.

Lemma chargeable_balance c v row p db r :
  chargeable c v row p db → user_profiles db !! v = Some r →
  ∃ b, star_balance r = Some b ∧ 0 < p ≤ b.
Proof.
  intros (_ & _ & _ & Hp & _ & _ & Hb) Hr.
  unfold select_star_balance_coalesced in Hb. rewrite Hr in Hb.
  cbn in Hb. apply Z.ltb_ge in Hb.
  destruct (star_balance r) as [b|]; cbn in Hb; [|lia].
  exists b. split; [done|lia].
Qed.

(** ** Viewing twice *)

(** C1 at a failing input: a viewer with six stars opens a post priced at
    three, twice.  Both calls of [process_post_view] charge: the second
    result says [charged] and carries no already-viewed flag, the viewer has
    no stars left, the pair has two Ledger Transactions and no View Record.
    The same two views of the story raise in [process_story_view] and leave
    no View Record and no Ledger Transaction. *)
Theorem post_view_twice_charges_twice :
  let db := example_db 6 (Some 3) in
  let db1 := after (recordView Post "c1" viewer db) db in
  let x2 := recordView Post "c1" viewer db1 in
  let db2 := after x2 db1 in
  charged (recordView Post "c1" viewer db) ∧
  result x2 =
    Some [("success", JBool true); ("viewer_earn", JNum 300.00%Q); ("charged", JBool true)] ∧
  star_balance <$> user_profiles db2 !! viewer = Some (Some 0) ∧
  ledger Post "c1" viewer db2 =
    [mk_ledger_entry 3 900.00%Q 300.00%Q 300.00%Q;
     mk_ledger_entry 3 900.00%Q 300.00%Q 300.00%Q] ∧
  view_records Post "c1" viewer db2 = [] ∧
  recordView Story "c1" viewer db = raise undefined_function ∧
  let db2' := after (recordView Story "c1" viewer (after (recordView Story "c1" viewer db) db))
                (after (recordView Story "c1" viewer db) db) in
  view_records Story "c1" viewer db2' = [] ∧ ledger Story "c1" viewer db2' = [].
Proof. repeat split; reflexivity. Qed.

(** When [post_views] does hold a row for the pair, the repeated view is
    refused without a charge, and the result has no [already_viewed] key. *)
Lemma post_view_already_recorded c v db row :
  posts db !! c = Some row → status row = "approved" →
  0 < coalesce (star_price row) 0 → user_id row ≠ v →
  post_view_exists c v db = true →
  recordView Post c v db = ok (not_charged, db) ∧
  json_get "already_viewed" not_charged = None.
Proof.
  intros Hrow Hst Hp Hu Hv. split; [|done].
  apply process_post_view_viewed with row; try done. by apply select_content_Some.
Qed.

(** The first migration's procedure did flag a repeated view, without a
    [charged] key. *)
Example first_process_story_view_repeated :
  let db1 := after (M20251022.process_story_view (Uuid "c1") viewer (example_db 5 (Some 3)))
               (example_db 5 (Some 3)) in
  story_views db1 = [mk_story_views_row (Uuid "c1") viewer (Some 3)] ∧
  M20251022.process_story_view (Uuid "c1") viewer db1 =
    ok ([("success", JBool true); ("already_viewed", JBool true)], db1).
Proof. split; vm_compute; reflexivity. Qed.

(** It also recorded the view of a free story, with no stars spent. *)
Example first_process_story_view_free :
  let x := M20251022.process_story_view (Uuid "c1") viewer (example_db 5 (Some 0)) in
  let db1 := after x (example_db 5 (Some 0)) in
  result x = Some [("success", JBool true); ("free", JBool true)] ∧
  story_views db1 = [mk_story_views_row (Uuid "c1") viewer (Some 0)] ∧
  view_count <$> user_storylines db1 !! Uuid "c1" = Some (Some 1).
Proof. repeat split; vm_compute; reflexivity. Qed.

(** ** The split of a charge *)

Lemma shares_sum (p : Z) :
  (uploader_share p + viewer_share p + platform_share p == inject_Z p * 500)%Q.
Proof. unfold uploader_share, viewer_share, platform_share, star_value. field. Qed.

Lemma shares_ratio (p : Z) :
  (uploader_share p * 20 == viewer_share p * 60)%Q ∧
  (viewer_share p * 20 == platform_share p * 20)%Q.
Proof.
  unfold uploader_share, viewer_share, platform_share, star_value. split; field.
Qed.

(** C2: a charging call appends one Ledger Transaction whose [stars_spent] is
    the item's star price [p] and whose three shares add up to [p * 500]
    exactly, the owner's being [p * 500 * 0.60] and the viewer's and the
    platform's [p * 500 * 0.20] each, that is 60 : 20 : 20. *)
Theorem charged_shares_conserved k c v db :
  charged (recordView k c v db) →
  ∃ row e,
    content_row_of k c db = Some row ∧ star_price row = Some (stars_spent e) ∧
    ledger k c v (after (recordView k c v db) db) = ledger k c v db ++ [e] ∧
    (owner_earn e + viewer_earn e + platform_earn e == inject_Z (stars_spent e) * 500)%Q ∧
    (owner_earn e == inject_Z (stars_spent e) * 500 * 0.60)%Q ∧
    (viewer_earn e == inject_Z (stars_spent e) * 500 * 0.20)%Q ∧
    (platform_earn e == inject_Z (stars_spent e) * 500 * 0.20)%Q ∧
    (owner_earn e * 20 == viewer_earn e * 60)%Q ∧
    (viewer_earn e * 20 == platform_earn e * 20)%Q.
Proof.
  intros Hch.
  charged_inv_as Hch row p db' Hc He Hr.
  destruct Hc as (Hrow & Hst & Hprice & _).
  exists row, (charge_entry p). cbn [charge_entry stars_spent owner_earn viewer_earn platform_earn].
  split; [done|]. split; [done|].
  split; [by eapply charge_effect_ledger|].
  split; [apply shares_sum|].
  repeat split; try reflexivity; apply shares_ratio.
Qed.

Lemma charged_shares_conserved_witness :
  charged (recordView Post "c1" viewer (example_db 5 (Some 3))) ∧
  ∃ row e,
    content_row_of Post "c1" (example_db 5 (Some 3)) = Some row ∧
    star_price row = Some (stars_spent e) ∧
    ledger Post "c1" viewer
      (after (recordView Post "c1" viewer (example_db 5 (Some 3))) (example_db 5 (Some 3))) =
      ledger Post "c1" viewer (example_db 5 (Some 3)) ++ [e] ∧
    (owner_earn e + viewer_earn e + platform_earn e == inject_Z (stars_spent e) * 500)%Q ∧
    (owner_earn e == inject_Z (stars_spent e) * 500 * 0.60)%Q ∧
    (viewer_earn e == inject_Z (stars_spent e) * 500 * 0.20)%Q ∧
    (platform_earn e == inject_Z (stars_spent e) * 500 * 0.20)%Q ∧
    (owner_earn e * 20 == viewer_earn e * 60)%Q ∧
    (viewer_earn e * 20 == platform_earn e * 20)%Q.
Proof.
  split; [reflexivity|].
  apply (charged_shares_conserved Post "c1" viewer (example_db 5 (Some 3))).
  reflexivity.
Defined.

(** ** Star balances stay non-negative *)

(** One call changes a star balance only by taking the price [p] from the
    viewer, and only from a balance that covers it. *)
Lemma recordView_star_balance k c v db u r' :
  user_profiles (after (recordView k c v db) db) !! u = Some r' →
  ∃ r, user_profiles db !! u = Some r ∧
    (star_balance r' = star_balance r ∨
     u = v ∧ ∃ row b p,
       content_row_of k c db = Some row ∧ star_price row = Some p ∧
       star_balance r = Some b ∧ 0 < p ≤ b ∧ star_balance r' = Some (b - p)).
Proof.
  intros Hu.
  destruct k; cbn [recordView] in *;
    [|rewrite process_story_view_raises in Hu; by exists r'; auto].
  destruct (process_post_view_outcome c v db)
    as [Hsel|row Hsel Hfree|row Hsel Hp Hn Hv|row Hsel Hp Hn Hv Hb|row p Hc Hfit
       |row p db' Hc Hfit He];
    [by exists r'; auto..|].
  cbn [after] in Hu.
  destruct (charge_effect_profile _ _ _ _ _ _ _ _ He Hu) as (r & Hr & Hs).
  exists r. split; [done|].
  destruct (decide (v = u)) as [->|Hne]; [right|by left].
  destruct (chargeable_balance _ _ _ _ _ _ Hc Hr) as (b & Hb & Hle).
  split; [done|]. exists row, b, p.
  destruct Hc as (Hrow & _ & Hprice & _).
  rewrite Hs, Hb. by repeat split; try lia.
Qed.

Lemma recordView_stars_nonneg k c v db :
  stars_nonneg db → stars_nonneg (after (recordView k c v db) db).
Proof.
  intros Hinv u r' b' Hu Hb'.
  destruct (recordView_star_balance _ _ _ _ _ _ Hu)
    as (r & Hr & [Hsame|(-> & row & b & p & _ & _ & Hb & Hle & Hnew)]).
  - apply (Hinv u r b' Hr). congruence.
  - rewrite Hnew in Hb'. injection Hb' as <-. lia.
Qed.

(** C3: from a state whose star balances are all non-negative, every state
    reached by any sequence of [recordView] calls has only non-negative star
    balances; and a call lowers a balance only for the viewer, by the price,
    and only when the balance is at least the price. *)
Theorem star_balance_never_negative db0 db :
  stars_nonneg db0 → reachable db0 db →
  stars_nonneg db ∧
  ∀ k c v u r', user_profiles (after (recordView k c v db) db) !! u = Some r' →
    ∃ r, user_profiles db !! u = Some r ∧
      (star_balance r' = star_balance r ∨
       u = v ∧ ∃ row b p,
         content_row_of k c db = Some row ∧ star_price row = Some p ∧
         star_balance r = Some b ∧ 0 < p ≤ b ∧ star_balance r' = Some (b - p)).
Proof.
  intros H0 Hreach. split.
  - induction Hreach as [|k c v db Hreach IH]; [done|].
    by apply recordView_stars_nonneg.
  - intros k c v u r'. apply recordView_star_balance.
Qed.

Lemma example_db_stars_nonneg stars price : 0 ≤ stars → stars_nonneg (example_db stars price).
Proof.
  intros Hs u r b Hu Hb. cbn [example_db user_profiles] in Hu.
  apply lookup_insert_Some in Hu as [[_ <-]|[_ Hu]].
  { cbn in Hb. injection Hb as <-. lia. }
  apply lookup_insert_Some in Hu as [[_ <-]|[_ Hu]].
  { cbn in Hb. by injection Hb as <-. }
  by rewrite lookup_empty in Hu.
Qed.

Lemma star_balance_never_negative_witness :
  let db0 := example_db 5 (Some 3) in
  let db := after (recordView Post "c1" viewer db0) db0 in
  stars_nonneg db ∧
  ∀ k c v u r', user_profiles (after (recordView k c v db) db) !! u = Some r' →
    ∃ r, user_profiles db !! u = Some r ∧
      (star_balance r' = star_balance r ∨
       u = v ∧ ∃ row b p,
         content_row_of k c db = Some row ∧ star_price row = Some p ∧
         star_balance r = Some b ∧ 0 < p ≤ b ∧ star_balance r' = Some (b - p)).
Proof.
  apply (star_balance_never_negative (example_db 5 (Some 3))).
  - apply example_db_stars_nonneg. lia.
  - apply reachable_call. apply reachable_init.
Defined.

(** ** Free and own content *)

(** C4, as stated, fails: neither the view of a free post nor the owner's
    view of a priced post inserts a View Record. *)
Lemma free_view_as_stated_fails :
  ¬ free_view_as_stated Post "c1" viewer (example_db 5 (Some 0)) ∧
  ¬ free_view_as_stated Post "c1" owner (example_db 5 (Some 3)).
Proof.
  split; intros (H & _); vm_compute in H; discriminate H.
Qed.

(** C4 (amended): on a live post priced at zero stars, for every viewer, and
    on any live post viewed by its owner, [process_post_view] returns success
    with [charged = false] and [viewer_earn = 0] and leaves the whole
    database unchanged: no View Record, no change of balance, no Ledger
    Transaction. *)
Theorem free_or_own_view_changes_nothing c v db row :
  posts db !! c = Some row → status row = "approved" →
  star_price row = Some 0 ∨ user_id row = v →
  recordView Post c v db = ok (not_charged, db).
Proof.
  intros Hrow Hst Hfree. apply process_post_view_free with row.
  - by apply select_content_Some.
  - destruct Hfree as [->|Hu]; [by left|by right].
Qed.

Lemma free_or_own_view_changes_nothing_witness :
  recordView Post "c1" viewer (example_db 5 (Some 0)) =
    ok (not_charged, example_db 5 (Some 0)) ∧
  recordView Post "c1" owner (example_db 5 (Some 3)) =
    ok (not_charged, example_db 5 (Some 3)).
Proof.
  split.
  - apply (free_or_own_view_changes_nothing "c1" viewer (example_db 5 (Some 0))
             (mk_content_row owner (Some 0) "approved" (Some 0)));
      [reflexivity|reflexivity|left; reflexivity].
  - apply (free_or_own_view_changes_nothing "c1" owner (example_db 5 (Some 3))
             (mk_content_row owner (Some 3) "approved" (Some 0)));
      [reflexivity|reflexivity|right; reflexivity].
Defined.

(** ** Too few stars *)

(** On a live, priced post not yet viewed by a viewer other than its owner,
    when the viewer's star balance is below the price, [process_post_view]
    returns the insufficient-stars error and the database is unchanged. *)
Lemma post_view_insufficient_stars_blocks c v db row p prof :
  posts db !! c = Some row → status row = "approved" →
  star_price row = Some p → 0 < p → user_id row ≠ v →
  post_view_exists c v db = false →
  user_profiles db !! v = Some prof → coalesce (star_balance prof) 0 < p →
  recordView Post c v db = ok (insufficient_stars, db).
Proof.
  intros Hrow Hst Hprice Hp Hu Hv Hprof Hlt.
  apply process_post_view_insufficient with row; rewrite ?Hprice; try done.
  - by apply select_content_Some.
  - unfold select_star_balance_coalesced. rewrite Hprof. cbn. by apply Z.ltb_lt.
Qed.

(** C5 at a failing input: a viewer with two stars opens a story priced at
    three.  [process_story_view] raises at its first statement, where it
    compares the uuid [id] with its text parameter, and returns no
    insufficient-stars error; [process_post_view] on the post of the same
    database, and the first [process_story_view] on the same story, return
    it and change nothing. *)
Theorem story_view_with_too_few_stars_raises :
  let db := example_db 2 (Some 3) in
  recordView Story "c1" viewer db = raise undefined_function ∧
  result (recordView Story "c1" viewer db) = None ∧
  recordView Post "c1" viewer db = ok (insufficient_stars, db) ∧
  M20251022.process_story_view (Uuid "c1") viewer db = ok (insufficient_stars, db).
Proof. repeat split; reflexivity. Qed.

(** ** A first charged view *)

(** C6 at a failing input: a viewer with five stars opens a post priced at
    three.  [process_post_view] charges as the example says (two stars left,
    300 and 900 credited, one Ledger Transaction of 900, 300, 300) but
    leaves [post_views] empty: there is no View Record. *)
Theorem post_view_charge_leaves_no_view_record :
  let db := example_db 5 (Some 3) in
  let r := result (recordView Post "c1" viewer db) in
  let db' := after (recordView Post "c1" viewer db) db in
  r = Some [("success", JBool true); ("viewer_earn", JNum 300.00%Q);
            ("charged", JBool true)] ∧
  user_profiles db' !! viewer =
    Some (mk_user_profiles_row (Some 2) (Some (Cents 30000)) (Some 0%Q)) ∧
  user_profiles db' !! owner =
    Some (mk_user_profiles_row (Some 0) (Some (Cents 90000)) (Some 900.00%Q)) ∧
  ledger Post "c1" viewer db' = [mk_ledger_entry 3 900.00%Q 300.00%Q 300.00%Q] ∧
  view_records Post "c1" viewer db' = [] ∧
  post_views db' = [].
Proof. repeat split; reflexivity. Qed.

(** The first [process_story_view] does all of the example on the story,
    View Record included; the later one raises and does none of it. *)
Example first_story_view_of_five_stars_at_three :
  let db := example_db 5 (Some 3) in
  let db' := after (M20251022.process_story_view (Uuid "c1") viewer db) db in
  user_profiles db' !! viewer =
    Some (mk_user_profiles_row (Some 2) (Some (Cents 30000)) (Some 0%Q)) ∧
  user_profiles db' !! owner =
    Some (mk_user_profiles_row (Some 0) (Some (Cents 90000)) (Some 0%Q)) ∧
  view_records Story "c1" viewer db' = [Some 3] ∧
  ledger Story "c1" viewer db' = [mk_ledger_entry 3 900.00%Q 300.00%Q 300.00%Q] ∧
  after (recordView Story "c1" viewer db) db = db.
Proof. repeat split; vm_compute; reflexivity. Qed.

(** ** Unavailable content *)

(** When the id names no post with status [approved] (no row at all, or a
    row that is not live), [process_post_view] returns the not-found error
    and the database is unchanged. *)
Lemma unavailable_post_rejected c v db :
  (∀ row, posts db !! c = Some row → status row ≠ "approved") →
  recordView Post c v db = ok (not_found Post, db).
Proof.
  intros H. apply process_post_view_not_found. by apply select_content_None.
Qed.

(** C8 at a failing input: a suspended story and a story id that names no
    row.  [process_story_view] raises on both and returns no not-found
    error; [process_post_view] on a suspended and on a missing post, and the
    first [process_story_view] on the same stories, return it and change
    nothing. *)
Theorem unavailable_story_view_raises :
  let db := suspended_db in
  recordView Story "c1" viewer db = raise undefined_function ∧
  recordView Story "c2" viewer db = raise undefined_function ∧
  recordView Post "c1" viewer db = ok (not_found Post, db) ∧
  recordView Post "c2" viewer db = ok (not_found Post, db) ∧
  M20251022.process_story_view (Uuid "c1") viewer db = ok (not_found Story, db) ∧
  M20251022.process_story_view (Uuid "c2") viewer db = ok (not_found Story, db).
Proof. repeat split; reflexivity. Qed.

(** ** A NULL price *)

Lemma posts_reprice c p db :
  posts (reprice c p db) = alter (with_star_price p) c (posts db).
Proof. reflexivity. Qed.

(** A post whose [star_price] is NULL is handled exactly like the same post
    priced at zero: the call returns what it returns for the zero-priced
    post and writes nothing; when the post is live that is the free path. *)
Lemma null_price_post_is_free c v db row :
  posts db !! c = Some row → star_price row = None →
  recordView Post c v db =
    ok (default [] (result (recordView Post c v (reprice c (Some 0) db))), db) ∧
  after (recordView Post c v (reprice c (Some 0) db)) (reprice c (Some 0) db) =
    reprice c (Some 0) db ∧
  (status row = "approved" → recordView Post c v db = ok (not_charged, db)).
Proof.
  intros Hrow Hnull. cbn [recordView].
  assert (posts (reprice c (Some 0) db) !! c = Some (with_star_price (Some 0) row))
    as Hrow' by by rewrite posts_reprice, lookup_alter_eq, Hrow.
  destruct (decide (status row = "approved")) as [Hst|Hst].
  - assert (process_post_view c v db = ok (not_charged, db)) as Hfree.
    { apply process_post_view_free with row; [by apply select_content_Some|].
      left. by rewrite Hnull. }
    rewrite (process_post_view_free c v (reprice c (Some 0) db)
               (with_star_price (Some 0) row));
      [done|by apply select_content_Some|by left].
  - assert (process_post_view c v db = ok (not_found Post, db)) as Hnf.
    { apply process_post_view_not_found, select_content_None. intros row0 H0. congruence. }
    rewrite (process_post_view_not_found c v (reprice c (Some 0) db)); [done|].
    apply select_content_None. intros row0 H0. rewrite Hrow' in H0. by injection H0 as <-.
Qed.

(** C10 at a failing input: a story whose [star_price] is NULL.
    [process_story_view] raises at its first statement and never reaches
    its [coalesce]: the free path is not taken.  [process_post_view] on the
    post of the same database takes it, as it does on the post priced at
    zero. *)
Theorem null_price_story_view_raises :
  let db := example_db 5 None in
  recordView Story "c1" viewer db = raise undefined_function ∧
  result (recordView Story "c1" viewer db) = None ∧
  recordView Post "c1" viewer db = ok (not_charged, db) ∧
  recordView Post "c1" viewer (reprice "c1" (Some 0) db) =
    ok (not_charged, reprice "c1" (Some 0) db).
Proof. repeat split; reflexivity. Qed.

(** ** The first [process_story_view], case by case *)

Lemma set_wallet_plus_exact (r : user_profiles_row) (a : numeric) (n : Z) :
  (wallet_of r + a == (wallet_cents r + n) # 100)%Q →
  set_wallet_plus (Some a) r =
    if fits_10_2 (wallet_cents r + n) then ok (credit_wallet n r)
    else raise numeric_value_out_of_range.
Proof.
  intros H. unfold set_wallet_plus. rewrite (to_decimal_10_2_exact r a n H).
  by destruct (fits_10_2 _).
Qed.

(** A checked credit of [n] hundredths goes through when it fits and raises
    when it does not. *)
Lemma update_user_profiles_checked_cases set (f : user_profiles_row → user_profiles_row)
    (n : Z) id db :
  (∀ r, set r = if fits_10_2 (wallet_cents r + n) then ok (f r)
                else raise numeric_value_out_of_range) →
  credit_fits db id n ∧
    update_user_profiles_checked set id db = ok (update_user_profiles f id db) ∨
  ¬ credit_fits db id n ∧
    update_user_profiles_checked set id db = raise numeric_value_out_of_range.
Proof.
  intros Hset. destruct (credit_fits_dec db id n) as [Hfit|Hfit]; [left|right].
  - split; [done|]. by apply update_user_profiles_checked_fits with n.
  - split; [done|]. by apply update_user_profiles_checked_overflow with f n.
Qed.

(** A credit of NULL sets the wallet to NULL and never raises. *)
Lemma update_user_profiles_checked_null id db :
  ∃ db', update_user_profiles_checked (set_wallet_plus None) id db = ok db' ∧
    auth_users db' = auth_users db ∧ user_storylines db' = user_storylines db ∧
    story_views db' = story_views db.
Proof.
  unfold update_user_profiles_checked.
  destruct (user_profiles db !! id) as [r|]; cbn; eauto.
Qed.

Lemma insert_story_views_ok r db :
  is_Some (user_storylines db !! sv_story_id r) → sv_viewer_id r ∈ auth_users db →
  insert_story_views r db =
    ok (mk_database (auth_users db) (user_profiles db) (posts db) (user_storylines db)
          (post_views db) (story_views db ++ [r]) (wallet_history db)
          (view_transactions db) (story_transactions db) (user_notifications db)).
Proof.
  intros Hs Hv. unfold insert_story_views.
  by rewrite !bool_decide_eq_true_2.
Qed.

Lemma insert_story_views_raise r db :
  sv_viewer_id r ∉ auth_users db → insert_story_views r db = raise foreign_key_violation.
Proof.
  intros Hv. unfold insert_story_views.
  by rewrite (bool_decide_eq_false_2 _ Hv), andb_false_r.
Qed.

Lemma insert_story_transactions_ok r db :
  is_Some (user_storylines db !! st_story_id r) →
  st_uploader_id r ∈ auth_users db → st_viewer_id r ∈ auth_users db →
  insert_story_transactions r db =
    ok (mk_database (auth_users db) (user_profiles db) (posts db) (user_storylines db)
          (post_views db) (story_views db) (wallet_history db) (view_transactions db)
          (story_transactions db ++ [r]) (user_notifications db)).
Proof.
  intros Hs Hu Hv. unfold insert_story_transactions.
  by rewrite !bool_decide_eq_true_2.
Qed.

Lemma insert_story_transactions_raise r db :
  st_uploader_id r ∉ auth_users db →
  insert_story_transactions r db = raise foreign_key_violation.
Proof.
  intros Hu. unfold insert_story_transactions.
  by rewrite (bool_decide_eq_false_2 _ Hu), andb_false_r.
Qed.

(** The viewer's credit comes after the owner's: when the viewer is the
    owner the wallet already holds the owner's share. *)
Lemma credit_fits_after_owner db v u p :
  credit_fits
    (update_user_profiles (credit_wallet (30000 * p)) u
       (update_user_profiles (set_star_balance_minus (Some p)) v db)) v (10000 * p) ↔
  credit_fits db v (if decide (u = v) then 40000 * p else 10000 * p).
Proof.
  destruct (decide (u = v)) as [->|Hne].
  - unfold credit_fits. cbn [update_user_profiles user_profiles].
    rewrite !lookup_alter_eq. destruct (user_profiles db !! v) as [r|]; [|done].
    cbn [fmap option_fmap option_map].
    change (wallet_cents (credit_wallet (30000 * p) (set_star_balance_minus (Some p) r)))
      with (wallet_cents r + 30000 * p).
    by replace (wallet_cents r + 30000 * p + 10000 * p) with (wallet_cents r + 40000 * p)
      by lia.
  - rewrite credit_fits_other by done. apply credit_fits_star_update.
Qed.

Lemma earn_60 (p : Z) : M20251022.earn (Some p) 0.60%Q = Some (uploader_share p).
Proof. reflexivity. Qed.

Lemma earn_20 (p : Z) : M20251022.earn (Some p) 0.20%Q = Some (viewer_share p).
Proof. reflexivity. Qed.

Lemma earn_null (ratio : numeric) : M20251022.earn None ratio = None.
Proof. reflexivity. Qed.

Lemma select_content_is_Some `{Countable K} (t : gmap K content_row) k st row :
  select_content t k st = Some row → is_Some (t !! k).
Proof. intros Hsel. apply select_content_Some in Hsel as [-> _]. by eexists. Qed.

Lemma first_process_story_view_outcome c v db :
  first_outcome c v db (M20251022.process_story_view c v db).
Proof.
  unfold M20251022.process_story_view.
  destruct (select_content (user_storylines db) c "active") as [row|] eqn:Hsel;
    [|by apply first_out_not_found].
  pose proof (select_content_is_Some _ _ _ _ Hsel) as Hstory.
  destruct (story_view_exists c v db) eqn:Hv; [by eapply first_out_viewed|].
  destruct (star_price row) as [p|] eqn:Hprice.
  - cbn [sql_eq sql_binop sql_true from_option id].
    destruct (p =? 0) eqn:Hp0.
    { apply Z.eqb_eq in Hp0 as ->.
      destruct (decide (v ∈ auth_users db)) as [Hin|Hin].
      - rewrite insert_story_views_ok by done. cbn [bind].
        eapply first_out_free; eauto. by repeat split.
      - rewrite insert_story_views_raise by done. by eapply first_out_raise. }
    apply Z.eqb_neq in Hp0.
    destruct (sql_true (sql_lt (select_star_balance v db) (Some p))) eqn:Hb.
    { destruct (select_star_balance v db) as [b|] eqn:Hbal; [|done].
      cbn in Hb. apply Z.ltb_lt in Hb. by eapply first_out_insufficient. }
    rewrite earn_60, earn_20.
    destruct (update_user_profiles_checked_cases
                (set_wallet_plus (Some (uploader_share p))) (credit_wallet (30000 * p))
                (30000 * p) (user_id row)
                (update_user_profiles (set_star_balance_minus (Some p)) v db))
      as [[Hfo ->]|[Hfo ->]];
      [intros r; apply set_wallet_plus_exact, numeric_of_plus_uploader_share
      | |by eapply first_out_raise].
    cbn [bind]. apply credit_fits_star_update in Hfo.
    destruct (update_user_profiles_checked_cases
                (set_wallet_plus (Some (viewer_share p))) (credit_wallet (10000 * p))
                (10000 * p) v
                (update_user_profiles (credit_wallet (30000 * p)) (user_id row)
                   (update_user_profiles (set_star_balance_minus (Some p)) v db)))
      as [[Hfv ->]|[Hfv ->]];
      [intros r; apply set_wallet_plus_exact, numeric_of_plus_viewer_share
      | |by eapply first_out_raise].
    cbn [bind]. apply credit_fits_after_owner in Hfv.
    destruct (decide (v ∈ auth_users db)) as [Hin|Hin];
      [|rewrite insert_story_views_raise by done; by eapply first_out_raise].
    rewrite insert_story_views_ok by done. cbn [bind M20251022.story_transactions_values].
    destruct (decide (user_id row ∈ auth_users db)) as [Hino|Hino];
      [|rewrite insert_story_transactions_raise by done; by eapply first_out_raise].
    rewrite insert_story_transactions_ok by done. cbn [bind].
    eapply first_out_charged; eauto; [done|].
    repeat split; try done.
    eexists _, _. cbn. rewrite <- app_assoc. by repeat split.
  - cbn [sql_eq sql_binop sql_true from_option id].
    replace (sql_lt (select_star_balance v db) None) with (@None bool)
      by by destruct (select_star_balance v db).
    cbn [sql_true from_option id]. rewrite !earn_null.
    destruct (update_user_profiles_checked_null (user_id row)
                (update_user_profiles (set_star_balance_minus None) v db))
      as (db1 & -> & _). cbn [bind].
    destruct (update_user_profiles_checked_null v db1) as (db2 & -> & _). cbn [bind].
    destruct (insert_story_views _ db2) as [db3|e]; cbn [bind]; by eapply first_out_raise.
Qed.

(** ** View counter and notifications *)

(** What the first migration's procedure does when it charges. *)
Lemma first_process_story_view_charge c v db r db' :
  M20251022.process_story_view c v db = ok (r, db') →
  is_Some (json_get "viewer_earn" r) →
  ∃ row n1 n2,
    user_storylines db !! c = Some row ∧
    user_storylines db' = alter set_view_count_plus_1 c (user_storylines db) ∧
    user_notifications db' = user_notifications db ++ [n1; n2] ∧
    un_user_id n1 = user_id row ∧ un_notification_category n1 = "story_earn" ∧
    un_user_id n2 = v ∧ un_notification_category n2 = "story_cashback".
Proof.
  intros Hrun Hearn.
  pose proof (first_process_story_view_outcome c v db) as Hout. rewrite Hrun in Hout.
  inversion Hout as [Hsel|row Hsel Hv|row db1 Hsel Hv Hp Hin He
                    |row p b Hsel Hv Hp Hp0 Hbal Hlt|row e Hsel Hv
                    |row p db1 Hsel Hv Hp Hp0 Hb Hin Hino Hfit He]; subst;
    try (destruct Hearn as [? Hearn]; discriminate Hearn).
  apply select_content_Some in Hsel as [Hrow Hst].
  destruct He as (_ & _ & _ & Hs & _ & _ & _ & _ & _ & n1 & n2 & Hn & H1 & H2 & H3 & H4).
  by exists row, n1, n2.
Qed.

(** C7, as stated, fails: the charged post view of the example leaves
    [view_count] at 0 and [user_notifications] empty. *)
Lemma counts_and_notifies_as_stated_fails :
  ¬ counts_and_notifies_as_stated Post "c1" viewer (example_db 5 (Some 3)).
Proof.
  intros H. destruct H as (Hcount & row & n1 & n2 & _ & Hn & _); [reflexivity|].
  vm_compute in Hcount. discriminate Hcount.
Qed.

Example charged_post_view_counter_and_notifications :
  let db := example_db 5 (Some 3) in
  let db' := after (recordView Post "c1" viewer db) db in
  charged (recordView Post "c1" viewer db) ∧
  view_count <$> posts db' !! "c1" = Some (Some 0) ∧
  user_notifications db' = [].
Proof. repeat split; reflexivity. Qed.

(** C7 (amended): a charging call of [process_story_view] as migration
    20251022 defines it adds one to the story's [view_count] and inserts two
    notifications, [story_earn] for the owner and [story_cashback] for the
    viewer.  A charging call of [recordView], which is a call of
    [process_post_view] since the later [process_story_view] raises before
    it charges, changes no content row (so no view counter) and inserts no
    notification; it appends two [wallet_history] rows instead, the owner's
    earning and the viewer's cashback. *)
Theorem charge_counter_and_notifications :
  (∀ c v db r db',
     M20251022.process_story_view c v db = ok (r, db') →
     is_Some (json_get "viewer_earn" r) →
     ∃ row n1 n2,
       user_storylines db !! c = Some row ∧
       user_storylines db' = alter set_view_count_plus_1 c (user_storylines db) ∧
       user_notifications db' = user_notifications db ++ [n1; n2] ∧
       un_user_id n1 = user_id row ∧ un_notification_category n1 = "story_earn" ∧
       un_user_id n2 = v ∧ un_notification_category n2 = "story_cashback") ∧
  (∀ k c v db,
     charged (recordView k c v db) →
     let db' := after (recordView k c v db) db in
     posts db' = posts db ∧ user_storylines db' = user_storylines db ∧
     user_notifications db' = user_notifications db ∧
     ∃ row h1 h2,
       content_row_of k c db = Some row ∧
       wallet_history db' = wallet_history db ++ [h1; h2] ∧
       wh_user_id h1 = user_id row ∧ wh_type h1 = earn_type k ∧
       wh_user_id h2 = v ∧ wh_type h2 = cashback_type k).
Proof.
  split; [exact first_process_story_view_charge|].
  intros k c v db Hch db'. subst db'.
  charged_inv_as Hch row p db1 Hc He Hr.
  destruct Hc as (Hrow & _). destruct He as (_ & _ & Hp & Hs & Hn & _ & Hw & _).
  repeat (split; [done|]).
  eexists row, _, _. by repeat split.
Qed.

Lemma charge_counter_and_notifications_witness :
  (let db := example_db 5 (Some 3) in
   ∃ r db' row n1 n2,
     M20251022.process_story_view (Uuid "c1") viewer db = ok (r, db') ∧
     user_storylines db !! Uuid "c1" = Some row ∧
     user_storylines db' = alter set_view_count_plus_1 (Uuid "c1") (user_storylines db) ∧
     user_notifications db' = user_notifications db ++ [n1; n2] ∧
     un_user_id n1 = user_id row ∧ un_notification_category n1 = "story_earn" ∧
     un_user_id n2 = viewer ∧ un_notification_category n2 = "story_cashback") ∧
  (let db := example_db 5 (Some 3) in
   let db' := after (recordView Post "c1" viewer db) db in
   posts db' = posts db ∧ user_storylines db' = user_storylines db ∧
   user_notifications db' = user_notifications db ∧
   ∃ row h1 h2,
     content_row_of Post "c1" db = Some row ∧
     wallet_history db' = wallet_history db ++ [h1; h2] ∧
     wh_user_id h1 = user_id row ∧ wh_type h1 = earn_type Post ∧
     wh_user_id h2 = viewer ∧ wh_type h2 = cashback_type Post).
Proof.
  split.
  - cbv zeta.
    destruct (M20251022.process_story_view (Uuid "c1") viewer (example_db 5 (Some 3)))
      as [[r db']|e] eqn:Hrun; [|vm_compute in Hrun; discriminate Hrun].
    exists r, db'.
    destruct (proj1 charge_counter_and_notifications (Uuid "c1") viewer
                (example_db 5 (Some 3)) r db' Hrun) as (row & n1 & n2 & H).
    + vm_compute in Hrun. injection Hrun as <- _. by eexists.
    + by exists row, n1, n2.
  - apply (proj2 charge_counter_and_notifications Post "c1" viewer
             (example_db 5 (Some 3))).
    reflexivity.
Defined.

(** ** Further properties of the later procedures *)

(** X1: a call whose result does not say [charged = true] writes nothing:
    the charge is the only path of either procedure that changes the
    database. *)
Theorem uncharged_call_writes_nothing k c v db :
  ¬ charged (recordView k c v db) → after (recordView k c v db) db = db.
Proof. apply not_charged_recordView. Qed.

Lemma uncharged_call_writes_nothing_witness :
  after (recordView Post "c1" viewer (example_db 2 (Some 3))) (example_db 2 (Some 3)) =
    example_db 2 (Some 3) ∧
  after (recordView Story "c2" viewer (example_db 2 (Some 3))) (example_db 2 (Some 3)) =
    example_db 2 (Some 3).
Proof.
  split.
  - apply (uncharged_call_writes_nothing Post "c1" viewer (example_db 2 (Some 3))).
    vm_compute. discriminate.
  - apply (uncharged_call_writes_nothing Story "c2" viewer (example_db 2 (Some 3))).
    vm_compute. tauto.
Defined.

(** X2: every result is of one of three shapes: an error (success false, an
    error text, no [charged] and no [viewer_earn] key), an uncharged success
    ([charged] false, [viewer_earn] the integer 0) or a paid success
    ([charged] true, [viewer_earn] the viewer's share of a positive price);
    and a call that returns no result raised because a credit did not fit
    its wallet or because a uuid was compared with a text. *)
Theorem result_has_one_of_three_shapes k c v db :
  match recordView k c v db with
  | ok (r, _) =>
      error_result r ∨ uncharged_result r ∨ ∃ p, 0 < p ∧ paid_result r p
  | raise e => e = numeric_value_out_of_range ∨ e = undefined_function
  end.
Proof.
  destruct k; cbn [recordView]; [|rewrite process_story_view_raises; by right].
  destruct (process_post_view_outcome c v db)
    as [Hsel|row Hsel Hfree|row Hsel Hp Hn Hv|row Hsel Hp Hn Hv Hb|row p Hc Hfit
       |row p db' Hc Hfit He].
  - left. repeat split; by eexists.
  - right; left. by repeat split.
  - right; left. by repeat split.
  - left. repeat split; by eexists.
  - by left.
  - right; right. exists p. destruct Hc as (_ & _ & _ & Hp & _). by repeat split.
Qed.

(** X3: a charge changes no profile row other than the viewer's and the
    owner's, creates and deletes no profile, and leaves the content tables,
    [post_views] and the notifications as they were. *)
Theorem charge_touches_only_viewer_and_owner k c v db row :
  charged (recordView k c v db) → content_row_of k c db = Some row →
  (∀ u, u ≠ v → u ≠ user_id row →
     user_profiles (after (recordView k c v db) db) !! u = user_profiles db !! u) ∧
  dom (user_profiles (after (recordView k c v db) db)) = dom (user_profiles db) ∧
  posts (after (recordView k c v db) db) = posts db ∧
  user_storylines (after (recordView k c v db) db) = user_storylines db ∧
  post_views (after (recordView k c v db) db) = post_views db ∧
  user_notifications (after (recordView k c v db) db) = user_notifications db.
Proof.
  intros Hch Hrow. charged_inv_as Hch row0 p0 db' Hc He Hr.
  destruct Hc as (Hrow' & _). cbn [content_row_of] in Hrow.
  rewrite Hrow in Hrow'. injection Hrow' as <-.
  destruct He as (_ & Hprof & Hposts & Hstories & Hnot & Hpv & _).
  repeat split; try done.
  - intros u Hv Hu. rewrite Hprof. by rewrite !lookup_alter_ne.
  - rewrite Hprof. by rewrite !dom_alter_L.
Qed.

Lemma charge_touches_only_viewer_and_owner_witness :
  let db := example_db 5 (Some 3) in
  (∀ u, u ≠ viewer → u ≠ user_id (mk_content_row owner (Some 3) "approved" (Some 0)) →
     user_profiles (after (recordView Post "c1" viewer db) db) !! u = user_profiles db !! u) ∧
  dom (user_profiles (after (recordView Post "c1" viewer db) db)) = dom (user_profiles db) ∧
  posts (after (recordView Post "c1" viewer db) db) = posts db ∧
  user_storylines (after (recordView Post "c1" viewer db) db) = user_storylines db ∧
  post_views (after (recordView Post "c1" viewer db) db) = post_views db ∧
  user_notifications (after (recordView Post "c1" viewer db) db) = user_notifications db.
Proof.
  apply (charge_touches_only_viewer_and_owner Post "c1" viewer (example_db 5 (Some 3))
           (mk_content_row owner (Some 3) "approved" (Some 0))); reflexivity.
Defined.

(** X4: when viewer and owner both have a profile, a charge at price [p]
    takes [p] stars from the viewer and nothing from the owner, adds
    [p * 100] to the viewer's wallet and [p * 300] to the owner's wallet and
    to the owner's [total_earned] (NULL counting as 0), and leaves the
    viewer's [total_earned] alone: the wallets gain [p * 400], four fifths
    of the price in NGN. *)
Theorem charge_moves_stars_and_money k c v db row p vp op :
  charged (recordView k c v db) →
  content_row_of k c db = Some row → star_price row = Some p →
  user_profiles db !! v = Some vp → user_profiles db !! user_id row = Some op →
  ∃ vp' op' b wv wo te,
    user_profiles (after (recordView k c v db) db) !! v = Some vp' ∧
    user_profiles (after (recordView k c v db) db) !! user_id row = Some op' ∧
    star_balance vp = Some b ∧ p ≤ b ∧ star_balance vp' = Some (b - p) ∧
    star_balance op' = star_balance op ∧
    wallet_balance vp' = Some wv ∧ wallet_balance op' = Some wo ∧
    total_earned op' = Some te ∧ total_earned vp' = total_earned vp ∧
    (numeric_of wv == wallet_of vp + inject_Z p * 100)%Q ∧
    (numeric_of wo == wallet_of op + inject_Z p * 300)%Q ∧
    (te == coalesce (total_earned op) 0 + inject_Z p * 300)%Q ∧
    (numeric_of wv + numeric_of wo ==
       wallet_of vp + wallet_of op + inject_Z p * 500 * (4 # 5))%Q.
Proof.
  intros Hch Hrow Hprice Hvp Hop. charged_inv_as Hch row0 p0 db' Hc He Hr.
  pose proof (chargeable_balance _ _ _ _ _ _ Hc Hvp) as (b & Hb & Hle).
  destruct Hc as (Hrow' & _ & Hprice' & _ & Hne & _).
  cbn [content_row_of] in Hrow. rewrite Hrow in Hrow'. injection Hrow' as <-.
  rewrite Hprice in Hprice'. injection Hprice' as <-.
  destruct He as (_ & Hprof & _).
  exists (credit_wallet (10000 * p) (set_star_balance_minus (Some p) vp)),
    (credit_wallet_and_total (30000 * p) (uploader_share p) op), b,
    (Cents (wallet_cents vp + 10000 * p)), (Cents (wallet_cents op + 30000 * p)),
    (coalesce (total_earned op) 0 + uploader_share p)%Q.
  rewrite Hprof.
  split.
  { by rewrite lookup_alter_eq, lookup_alter_ne, lookup_alter_eq, Hvp. }
  split.
  { rewrite lookup_alter_ne, lookup_alter_eq, lookup_alter_ne, Hop by done. done. }
  cbn [set_star_balance_minus credit_wallet credit_wallet_and_total star_balance
       wallet_balance total_earned]. rewrite Hb. cbn [sql_sub sql_binop].
  repeat (split; [first [done|lia]|]).
  unfold uploader_share, star_value, wallet_of, numeric_of, wallet_cents, Qeq. cbn.
  repeat split; lia.
Qed.

Lemma charge_moves_stars_and_money_witness :
  let db := example_db 5 (Some 3) in
  let row := mk_content_row owner (Some 3) "approved" (Some 0) in
  ∃ vp' op' b wv wo te,
    user_profiles (after (recordView Post "c1" viewer db) db) !! viewer = Some vp' ∧
    user_profiles (after (recordView Post "c1" viewer db) db) !! user_id row = Some op' ∧
    star_balance (profile 5 (Cents 0)) = Some b ∧ 3 ≤ b ∧ star_balance vp' = Some (b - 3) ∧
    star_balance op' = star_balance (profile 0 (Cents 0)) ∧
    wallet_balance vp' = Some wv ∧ wallet_balance op' = Some wo ∧
    total_earned op' = Some te ∧ total_earned vp' = total_earned (profile 5 (Cents 0)) ∧
    (numeric_of wv == wallet_of (profile 5 (Cents 0)) + inject_Z 3 * 100)%Q ∧
    (numeric_of wo == wallet_of (profile 0 (Cents 0)) + inject_Z 3 * 300)%Q ∧
    (te == coalesce (total_earned (profile 0 (Cents 0))) 0 + inject_Z 3 * 300)%Q ∧
    (numeric_of wv + numeric_of wo ==
       wallet_of (profile 5 (Cents 0)) + wallet_of (profile 0 (Cents 0))
       + inject_Z 3 * 500 * (4 # 5))%Q.
Proof.
  apply (charge_moves_stars_and_money Post "c1" viewer (example_db 5 (Some 3))
           (mk_content_row owner (Some 3) "approved" (Some 0)) 3
           (profile 5 (Cents 0)) (profile 0 (Cents 0))); reflexivity.
Defined.

(** ** What any sequence of calls keeps *)

Lemma run_all_snoc cls cl db : run_all (cls ++ [cl]) db = run cl (run_all cls db).
Proof. unfold run_all. by rewrite foldl_app. Qed.

(** A property kept by every call is kept by every sequence of calls. *)
Lemma run_all_ind (P : database → Prop) :
  (∀ cl db, P db → P (run cl db)) → ∀ cls db, P db → P (run_all cls db).
Proof.
  intros Hstep cls. induction cls as [|cl cls IH]; intros db H; [done|].
  cbn. apply IH, Hstep, H.
Qed.

Lemma run_call_story_view c v db : run (call_story_view c v) db = db.
Proof. cbn [run]. by rewrite process_story_view_raises. Qed.

Lemma run_post_views cl db : post_views (run cl db) = post_views db.
Proof.
  destruct cl as [c v|c v|c v]; rewrite ?run_call_story_view; [| |]; cbn [run]; [|done|].
  - destruct (process_post_view_outcome c v db)
      as [?|? ? ?|? ? ? ? ?|? ? ? ? ? ?|? ? ? ?|row p db' Hc Hfit He]; try done.
    by destruct He as (_ & _ & _ & _ & _ & H & _).
  - destruct (first_process_story_view_outcome c v db)
      as [?|? ? ?|row db' Hsel Hv Hp Hin He|? ? ? ? ? ? ? ? ?|? ? ? ?
         |row p db' Hsel Hv Hp Hp0 Hb Hin Hino Hfit He];
      try done.
    + by destruct He as (_ & _ & _ & _ & H & _).
    + by destruct He as (_ & _ & _ & _ & H & _).
Qed.

(** X5: no sequence of calls of the three procedures ever writes
    [post_views]: the table [process_post_view] consults to prevent a
    double charge stays exactly as it was. *)
Theorem post_views_never_written cls db :
  post_views (run_all cls db) = post_views db.
Proof.
  apply (run_all_ind (λ d, post_views d = post_views db)); [|done].
  intros cl d Hd. by rewrite run_post_views.
Qed.

(** After a charge the owner's and the viewer's wallets hold the first
    shares, so a second charge fits exactly when twice the shares fit the
    wallets of before. *)
Lemma credits_fit_after_charge c v u p db db' :
  u ≠ v → charge_effect c v u p db db' →
  credits_fit v u p db' ↔
  credit_fits db u (2 * (30000 * p)) ∧ credit_fits db v (2 * (10000 * p)).
Proof.
  intros Hne (_ & Hprof & _). pose proof (not_eq_sym Hne) as Hne'.
  assert (user_profiles db' !! u =
            credit_wallet_and_total (30000 * p) (uploader_share p) <$> user_profiles db !! u)
    as Hu.
  { rewrite Hprof, lookup_alter_ne by done.
    by rewrite lookup_alter_eq, lookup_alter_ne. }
  assert (user_profiles db' !! v =
            credit_wallet (10000 * p) <$>
              (set_star_balance_minus (Some p) <$> user_profiles db !! v)) as Hv.
  { rewrite Hprof, lookup_alter_eq, lookup_alter_ne by done.
    by rewrite lookup_alter_eq. }
  unfold credits_fit, credit_fits. rewrite Hu, Hv.
  destruct (user_profiles db !! u) as [op|], (user_profiles db !! v) as [vp|];
    cbn [fmap option_fmap option_map];
    change (wallet_cents (credit_wallet_and_total (30000 * p) (uploader_share p) op))
      with (wallet_cents op + 30000 * p) || idtac;
    change (wallet_cents (credit_wallet (10000 * p) (set_star_balance_minus (Some p) vp)))
      with (wallet_cents vp + 10000 * p) || idtac;
    rewrite <- ?Z.add_assoc, <- ?Z.add_diag; tauto.
Qed.

(** X6: a post is charged again on a repeated view.  When
    [process_post_view] charges price [p] to a viewer who had at least
    [2 * p] stars, the next call for the same post and viewer charges again
    (two Ledger Transactions, [2 * p] stars gone, still no View Record),
    provided the wallets of before hold twice the shares, 600 NGN a star for
    the owner and 200 NGN a star for the viewer; otherwise the second call
    raises, a credit being out of the range of its wallet, and changes
    nothing. *)
Theorem post_view_charged_again c v db row p vp b :
  charged (recordView Post c v db) →
  posts db !! c = Some row → star_price row = Some p →
  user_profiles db !! v = Some vp → star_balance vp = Some b → 2 * p ≤ b →
  let db1 := after (recordView Post c v db) db in
  let db2 := after (recordView Post c v db1) db1 in
  let twice_fits :=
    credit_fits db (user_id row) (2 * (30000 * p)) ∧ credit_fits db v (2 * (10000 * p)) in
  (twice_fits →
     charged (recordView Post c v db1) ∧
     ledger Post c v db2 = ledger Post c v db ++ [charge_entry p; charge_entry p] ∧
     (∃ vp2, user_profiles db2 !! v = Some vp2 ∧ star_balance vp2 = Some (b - 2 * p)) ∧
     view_records Post c v db2 = view_records Post c v db) ∧
  (¬ twice_fits →
     recordView Post c v db1 = raise numeric_value_out_of_range ∧ db2 = db1).
Proof.
  intros Hch Hrow Hprice Hvp Hb H2 db1 db2 twice_fits. subst db1 db2 twice_fits.
  destruct (charged_recordView Post c v db Hch)
    as (_ & row0 & p0 & db1 & Hc & _ & He & Hr).
  rewrite Hr. cbn [after].
  pose proof Hc as (Hrow' & Hst & Hprice' & Hp & Hne & Hv & _).
  rewrite Hrow in Hrow'. injection Hrow' as <-.
  rewrite Hprice in Hprice'. injection Hprice' as <-.
  pose proof He as (_ & Hprof & Hposts & _ & _ & Hpv & _).
  assert (user_profiles db1 !! v =
            Some (credit_wallet (10000 * p) (set_star_balance_minus (Some p) vp))) as Hvp1.
  { by rewrite Hprof, lookup_alter_eq, lookup_alter_ne, lookup_alter_eq, Hvp. }
  assert (chargeable c v row p db1) as Hc1.
  { repeat split; try done.
    - by rewrite Hposts.
    - unfold post_view_exists in *. by rewrite Hpv.
    - unfold select_star_balance_coalesced. rewrite Hvp1. cbn. rewrite Hb. cbn.
      apply Z.ltb_ge. lia. }
  pose proof (credits_fit_after_charge c v (user_id row) p db db1 Hne He) as Hfits.
  cbn [recordView]. split.
  - intros Hfit. apply Hfits in Hfit.
    destruct (process_post_view_charged c v db1 row p Hc1 Hfit) as (db2 & -> & He1).
    cbn [after]. split; [reflexivity|].
    split; [|split].
    + rewrite (charge_effect_ledger _ _ _ _ _ _ He1), (charge_effect_ledger _ _ _ _ _ _ He).
      by rewrite <- app_assoc.
    + destruct He1 as (_ & Hprof1 & _). eexists. split.
      * by rewrite Hprof1, lookup_alter_eq, lookup_alter_ne, lookup_alter_eq, Hvp1.
      * cbn. rewrite Hb. cbn. f_equal. lia.
    + rewrite (charge_effect_view_records _ _ _ _ _ _ He1).
      by rewrite (charge_effect_view_records _ _ _ _ _ _ He).
  - intros Hfit. rewrite (process_post_view_overflow c v db1 row p Hc1); [done|].
    intros Hfit'. by apply Hfit, Hfits.
Qed.

Lemma post_view_charged_again_witness :
  let db := example_db 6 (Some 3) in
  let db1 := after (recordView Post "c1" viewer db) db in
  let db2 := after (recordView Post "c1" viewer db1) db1 in
  let twice_fits :=
    credit_fits db (user_id (mk_content_row owner (Some 3) "approved" (Some 0)))
      (2 * (30000 * 3)) ∧
    credit_fits db viewer (2 * (10000 * 3)) in
  twice_fits ∧
  (twice_fits →
     charged (recordView Post "c1" viewer db1) ∧
     ledger Post "c1" viewer db2 =
       ledger Post "c1" viewer db ++ [charge_entry 3; charge_entry 3] ∧
     (∃ vp2, user_profiles db2 !! viewer = Some vp2 ∧
             star_balance vp2 = Some (6 - 2 * 3)) ∧
     view_records Post "c1" viewer db2 = view_records Post "c1" viewer db) ∧
  (¬ twice_fits →
     recordView Post "c1" viewer db1 = raise numeric_value_out_of_range ∧ db2 = db1).
Proof.
  split; [split; reflexivity|].
  apply (post_view_charged_again "c1" viewer (example_db 6 (Some 3))
           (mk_content_row owner (Some 3) "approved" (Some 0)) 3 (profile 6 (Cents 0)) 6);
    [reflexivity|reflexivity|reflexivity|reflexivity|reflexivity|lia].
Defined.

(** The owner's wallet one charge short of its limit: the first view of a
    post priced at three is charged, the second raises and is rolled
    back. *)
Example second_charge_overflows :
  let db :=
    mk_database {[owner; viewer]}
      (<[owner := profile 0 (Cents 9999890000)]> (<[viewer := profile 6 (Cents 0)]> ∅))
      (<["c1" := mk_content_row owner (Some 3) "approved" (Some 0)]> ∅) ∅
      [] [] [] [] [] [] in
  let db1 := after (recordView Post "c1" viewer db) db in
  charged (recordView Post "c1" viewer db) ∧
  wallet_balance <$> user_profiles db1 !! owner = Some (Some (Cents 9999980000)) ∧
  recordView Post "c1" viewer db1 = raise numeric_value_out_of_range ∧
  after (recordView Post "c1" viewer db1) db1 = db1.
Proof. repeat split; vm_compute; reflexivity. Qed.

Lemma story_view_exists_pairs s v db :
  story_view_exists s v db = true ↔ (s, v) ∈ story_pairs db.
Proof.
  unfold story_view_exists, story_pairs. rewrite existsb_exists, list_elem_of_fmap.
  split.
  - intros (r & Hin & Heq). apply andb_true_iff in Heq as [H1 H2].
    apply bool_decide_eq_true in H1, H2. exists r. split; [by rewrite H1, H2|].
    by apply list_elem_of_In.
  - intros (r & Heq & Hin). injection Heq as -> ->. exists r.
    split; [by apply list_elem_of_In|]. apply uuid_pair_refl.
Qed.

(** A call leaves [story_views] alone or appends one row, for a pair that
    had none. *)
Lemma run_story_views cl db :
  story_views (run cl db) = story_views db ∨
  ∃ s v x, story_view_exists s v db = false ∧
    story_views (run cl db) = story_views db ++ [mk_story_views_row s v x].
Proof.
  destruct cl as [c v|c v|c v]; rewrite ?run_call_story_view; [| |]; cbn [run];
    [|by left|].
  - destruct (process_post_view_outcome c v db)
      as [?|? ? ?|? ? ? ? ?|? ? ? ? ? ?|? ? ? ?|row p db' Hc Hfit He]; try by left.
    left. by destruct He as (_ & _ & _ & _ & _ & _ & _ & H & _).
  - destruct (first_process_story_view_outcome c v db)
      as [?|? ? ?|row db' Hsel Hv Hp Hin He|? ? ? ? ? ? ? ? ?|? ? ? ?
         |row p db' Hsel Hv Hp Hp0 Hb Hin Hino Hfit He];
      try by left.
    + right. exists c, v, (Some 0). by destruct He as (_ & _ & _ & _ & _ & _ & _ & H & _).
    + right. exists c, v, (Some p). by destruct He as (_ & _ & _ & _ & _ & _ & _ & H & _).
Qed.

Lemma run_keeps_pairs_unique cl db :
  NoDup (story_pairs db) → NoDup (story_pairs (run cl db)).
Proof.
  intros Hnd.
  destruct (run_story_views cl db) as [Heq|(s & v & x & Hv & Heq)];
    unfold story_pairs in *; rewrite Heq; [done|].
  rewrite fmap_app. apply NoDup_app. split; [done|]. split; [|apply NoDup_singleton].
  intros [s' v'] Hin Hin'. cbn in Hin'. apply list_elem_of_singleton in Hin'.
  injection Hin' as -> ->.
  apply (story_view_exists_pairs s v db) in Hin. congruence.
Qed.

(** X7: the constraint [UNIQUE(story_id, viewer_id)] of [story_views] is
    never violated: if no pair occurs twice before a sequence of calls of
    the three procedures, none occurs twice after it. *)
Theorem story_views_stay_unique cls db :
  NoDup (story_pairs db) → NoDup (story_pairs (run_all cls db)).
Proof.
  apply (run_all_ind (λ d, NoDup (story_pairs d))). apply run_keeps_pairs_unique.
Qed.

Lemma story_views_stay_unique_witness :
  NoDup (story_pairs
           (run_all [call_first_story_view (Uuid "c1") viewer; call_story_view "c1" viewer;
                     call_first_story_view (Uuid "c1") viewer;
                     call_first_story_view (Uuid "c1") owner] (example_db 9 (Some 3)))).
Proof.
  apply (story_views_stay_unique _ (example_db 9 (Some 3))). apply NoDup_nil_2.
Defined.

Lemma run_appends cl db :
  wallet_history db `prefix_of` wallet_history (run cl db) ∧
  view_transactions db `prefix_of` view_transactions (run cl db) ∧
  story_transactions db `prefix_of` story_transactions (run cl db) ∧
  user_notifications db `prefix_of` user_notifications (run cl db).
Proof.
  destruct cl as [c v|c v|c v]; rewrite ?run_call_story_view; [| |]; cbn [run];
    [|done|].
  - destruct (process_post_view_outcome c v db)
      as [?|? ? ?|? ? ? ? ?|? ? ? ? ? ?|? ? ? ?|row p db' Hc Hfit He]; try done.
    destruct He as (_ & _ & _ & _ & Hn & _ & Hw & _ & Hst & Hvt). cbn [after].
    rewrite Hn, Hw, Hst, Hvt. repeat split; by try apply prefix_app_r.
  - destruct (first_process_story_view_outcome c v db)
      as [?|? ? ?|row db' Hsel Hv Hp Hin He|? ? ? ? ? ? ? ? ?|? ? ? ?
         |row p db' Hsel Hv Hp Hp0 Hb Hin Hino Hfit He];
      try done.
    + destruct He as (_ & _ & _ & _ & _ & Hw & Hvt & _ & Hst & Hn). cbn [after].
      by rewrite Hn, Hw, Hst, Hvt.
    + destruct He as (_ & _ & _ & _ & _ & Hw & Hvt & _ & Hst & n1 & n2 & Hn & _).
      cbn [after]. rewrite Hn, Hw, Hst, Hvt. repeat split; by try apply prefix_app_r.
Qed.

(** X8: the five logs are append-only.  After any sequence of calls of the
    three procedures, [story_views], [wallet_history], [view_transactions],
    [story_transactions] and [user_notifications] each begin with the rows
    they had before, unchanged and in the same order. *)
Theorem logs_are_append_only cls db :
  story_views db `prefix_of` story_views (run_all cls db) ∧
  wallet_history db `prefix_of` wallet_history (run_all cls db) ∧
  view_transactions db `prefix_of` view_transactions (run_all cls db) ∧
  story_transactions db `prefix_of` story_transactions (run_all cls db) ∧
  user_notifications db `prefix_of` user_notifications (run_all cls db).
Proof.
  apply (run_all_ind (λ d,
    story_views db `prefix_of` story_views d ∧
    wallet_history db `prefix_of` wallet_history d ∧
    view_transactions db `prefix_of` view_transactions d ∧
    story_transactions db `prefix_of` story_transactions d ∧
    user_notifications db `prefix_of` user_notifications d)); [|done].
  intros cl d (H1 & H2 & H3 & H4 & H5).
  destruct (run_appends cl d) as (A2 & A3 & A4 & A5).
  split; [|by repeat split; etrans].
  destruct (run_story_views cl d) as [->|(s & v & x & _ & ->)]; [done|].
  etrans; [done|]. by apply prefix_app_r.
Qed.

(** ** Edges of the later procedures *)

(** X9: a viewer with no [user_profiles] row is not refused by
    [process_post_view].  The balance read finds no row, the comparison
    with the price is NULL and the insufficient-stars branch is not taken:
    on a live, priced post of someone else, not yet viewed, the call charges
    when the owner's credit fits the owner's wallet; the owner's row is
    credited and no other profile row changes, so nobody pays the stars. *)
Theorem viewer_without_profile_pays_nothing c v db row p :
  posts db !! c = Some row → status row = "approved" →
  star_price row = Some p → 0 < p → user_id row ≠ v →
  post_view_exists c v db = false →
  user_profiles db !! v = None →
  credit_fits db (user_id row) (30000 * p) →
  ∃ db', recordView Post c v db = ok (charged_result p, db') ∧
    user_profiles db' =
      alter (credit_wallet_and_total (30000 * p) (uploader_share p)) (user_id row)
        (user_profiles db) ∧
    ledger Post c v db' = ledger Post c v db ++ [charge_entry p].
Proof.
  intros Hrow Hst Hprice Hp Hne Hv Hnone Hfit.
  assert (chargeable c v row p db) as Hc.
  { repeat split; try done. unfold select_star_balance_coalesced. by rewrite Hnone. }
  assert (credits_fit v (user_id row) p db) as Hfits.
  { split; [done|]. unfold credit_fits. by rewrite Hnone. }
  destruct (process_post_view_charged c v db row p Hc Hfits) as (db' & Hr & He).
  exists db'. split; [done|]. split; [|by eapply charge_effect_ledger].
  destruct He as (_ & Hprof & _). rewrite Hprof.
  apply map_eq. intros u.
  destruct (decide (v = u)) as [<-|Hvu].
  - rewrite lookup_alter_eq.
    rewrite (lookup_alter_ne _ _ (user_id row) v) by done.
    rewrite lookup_alter_eq.
    rewrite (lookup_alter_ne _ _ (user_id row) v) by done.
    by rewrite Hnone.
  - rewrite lookup_alter_ne by done.
    destruct (decide (user_id row = u)) as [<-|Hou].
    + by rewrite !lookup_alter_eq, lookup_alter_ne.
    + by rewrite !lookup_alter_ne.
Qed.

(** The example database without the viewer's profile. *)
Lemma viewer_without_profile_pays_nothing_witness :
  let db := mk_database {[owner; viewer]} (<[owner := profile 0 (Cents 0)]> ∅)
              (<["c1" := mk_content_row owner (Some 3) "approved" (Some 0)]> ∅)
              ∅ [] [] [] [] [] [] in
  ∃ db', recordView Post "c1" viewer db = ok (charged_result 3, db') ∧
    user_profiles db' =
      alter (credit_wallet_and_total (30000 * 3) (uploader_share 3))
        (user_id (mk_content_row owner (Some 3) "approved" (Some 0))) (user_profiles db) ∧
    ledger Post "c1" viewer db' = ledger Post "c1" viewer db ++ [charge_entry 3].
Proof.
  apply (viewer_without_profile_pays_nothing "c1" viewer _
           (mk_content_row owner (Some 3) "approved" (Some 0)) 3);
    [reflexivity|reflexivity|reflexivity|lia|discriminate|reflexivity|reflexivity
    |reflexivity].
Defined.

Lemma recordView_log_lengths k c v db :
  (length (wallet_history (after (recordView k c v db) db))
   + 2 * (length (view_transactions db) + length (story_transactions db))
   = length (wallet_history db)
     + 2 * (length (view_transactions (after (recordView k c v db) db))
            + length (story_transactions (after (recordView k c v db) db))))%nat.
Proof.
  destruct k; cbn [recordView]; [|by rewrite process_story_view_raises].
  destruct (process_post_view_outcome c v db)
    as [?|? ? ?|? ? ? ? ?|? ? ? ? ? ?|? ? ? ?|row p db' Hc Hfit He]; try done.
  destruct He as (_ & _ & _ & _ & _ & _ & Hw & _ & Hst & Hvt). cbn [after].
  rewrite Hw, Hst, Hvt, !length_app. cbn [length]. lia.
Qed.

(** X10: [wallet_history] grows in step with the two transaction tables.
    Along any sequence of [recordView] calls it gains exactly two rows for
    every row gained by [view_transactions] or [story_transactions]. *)
Theorem wallet_history_two_rows_per_transaction db0 db :
  reachable db0 db →
  (length (wallet_history db)
   + 2 * (length (view_transactions db0) + length (story_transactions db0))
   = length (wallet_history db0)
     + 2 * (length (view_transactions db) + length (story_transactions db)))%nat.
Proof.
  induction 1 as [|k c v db Hreach IH]; [done|].
  pose proof (recordView_log_lengths k c v db). lia.
Qed.

Lemma wallet_history_two_rows_per_transaction_witness :
  let db0 := example_db 9 (Some 3) in
  let db1 := after (recordView Story "c1" viewer db0) db0 in
  let db := after (recordView Post "c1" viewer db1) db1 in
  (length (wallet_history db)
   + 2 * (length (view_transactions db0) + length (story_transactions db0))
   = length (wallet_history db0)
     + 2 * (length (view_transactions db) + length (story_transactions db)))%nat.
Proof.
  apply (wallet_history_two_rows_per_transaction (example_db 9 (Some 3))).
  apply reachable_call, reachable_call, reachable_init.
Defined.

(** ** The first [process_story_view] *)

Lemma first_viewed_forward c v db row :
  select_content (user_storylines db) c "active" = Some row →
  story_view_exists c v db = true →
  M20251022.process_story_view c v db = ok (first_already_viewed, db).
Proof. intros Hsel Hv. unfold M20251022.process_story_view. by rewrite Hsel, Hv. Qed.


Lemma Uuid_uuid_text (c : uuid) : Uuid (uuid_text c) = c.
Proof. by destruct c. Qed.

Lemma story_ledger_snoc c v t db db' :
  story_transactions db' = story_transactions db ++ [t] →
  ledger Story c v db' =
    ledger Story c v db ++
    (if bool_decide (st_story_id t = Uuid c) && bool_decide (st_viewer_id t = v)
     then [of_story_transaction t] else []).
Proof.
  intros H. cbn [ledger]. rewrite H, List.filter_app, fmap_app. cbn [List.filter].
  by destruct (bool_decide (st_story_id t = Uuid c) && bool_decide (st_viewer_id t = v)).
Qed.

Lemma story_view_records_snoc c v c0 v0 x db db' :
  story_views db' = story_views db ++ [mk_story_views_row c0 v0 x] →
  view_records Story c v db' =
    view_records Story c v db ++
    (if bool_decide (c0 = Uuid c) && bool_decide (v0 = v) then [x] else []).
Proof.
  intros H. cbn [view_records]. rewrite H, List.filter_app, fmap_app. cbn [List.filter].
  cbn [sv_story_id sv_viewer_id].
  by destruct (bool_decide (c0 = Uuid c) && bool_decide (v0 = v)).
Qed.

(** X11: under the constraint [CHECK (star_price >= 0 AND star_price <= 5)]
    of [user_storylines], one paid story view of the first
    [process_story_view] spends between one and five stars and records at
    most 1500 NGN for the owner and at most 500 NGN each for the viewer and
    the platform. *)
Theorem story_charge_is_bounded c v db r db' row :
  M20251022.process_story_view c v db = ok (r, db') →
  is_Some (json_get "viewer_earn" r) →
  user_storylines db !! c = Some row → star_price_check row →
  ∃ e, ledger Story (uuid_text c) v db' = ledger Story (uuid_text c) v db ++ [e] ∧
    star_price row = Some (stars_spent e) ∧ 1 ≤ stars_spent e ≤ 5 ∧
    (owner_earn e <= 1500)%Q ∧ (viewer_earn e <= 500)%Q ∧ (platform_earn e <= 500)%Q.
Proof.
  intros Hrun Hearn Hrow Hcheck.
  pose proof (first_process_story_view_outcome c v db) as Hout. rewrite Hrun in Hout.
  inversion Hout as [Hsel|row0 Hsel Hv|row0 db1 Hsel Hv Hp Hin He
                    |row0 p b Hsel Hv Hp Hp0 Hbal Hlt|row0 e Hsel Hv
                    |row0 p db1 Hsel Hv Hp Hp0 Hb Hin Hino Hfit He]; subst;
    try (destruct Hearn as [? Hearn]; discriminate Hearn).
  apply select_content_Some in Hsel as [Hrow0 _].
  rewrite Hrow in Hrow0. injection Hrow0 as <-.
  unfold star_price_check in Hcheck. rewrite Hp in Hcheck.
  destruct He as (_ & _ & _ & _ & _ & _ & _ & _ & Hst & _).
  eexists. split.
  { rewrite (story_ledger_snoc _ _ _ _ _ Hst). cbn [st_story_id st_viewer_id].
    by rewrite Uuid_uuid_text, uuid_pair_refl. }
  cbn [of_story_transaction stars_spent owner_earn viewer_earn platform_earn
       st_stars_spent st_uploader_earn st_viewer_earn st_platform_earn].
  split; [done|]. split; [lia|].
  unfold Qle. cbn. repeat split; lia.
Qed.

Lemma story_charge_is_bounded_witness :
  let db := example_db 5 (Some 3) in
  let x := M20251022.process_story_view (Uuid "c1") viewer db in
  ∃ e, ledger Story "c1" viewer (after x db) = ledger Story "c1" viewer db ++ [e] ∧
    star_price (mk_content_row owner (Some 3) "active" (Some 0)) = Some (stars_spent e) ∧
    1 ≤ stars_spent e ≤ 5 ∧
    (owner_earn e <= 1500)%Q ∧ (viewer_earn e <= 500)%Q ∧ (platform_earn e <= 500)%Q.
Proof.
  cbv zeta.
  destruct (M20251022.process_story_view (Uuid "c1") viewer (example_db 5 (Some 3)))
    as [[r db']|e] eqn:Hrun; [|vm_compute in Hrun; discriminate Hrun].
  apply (story_charge_is_bounded (Uuid "c1") viewer (example_db 5 (Some 3)) r db'
           (mk_content_row owner (Some 3) "active" (Some 0)) Hrun);
    [vm_compute in Hrun; injection Hrun as <- _; by eexists|reflexivity|cbn; lia].
Defined.

Lemma select_content_view_count_plus_1 (t : gmap uuid content_row) c c' st :
  select_content (alter set_view_count_plus_1 c t) c' st =
    if decide (c = c') then set_view_count_plus_1 <$> select_content t c' st
    else select_content t c' st.
Proof.
  unfold select_content. rewrite lookup_alter.
  destruct (decide (c = c')) as [->|Hne]; [|done].
  destruct (t !! c') as [r|]; [|done]. cbn.
  by destruct (String.eqb (status r) st).
Qed.

(** X12: the first [process_story_view] is idempotent.  After any call that
    returned success (already viewed, free or paid), the same call again
    returns success with [already_viewed] true and writes nothing. *)
Theorem first_story_view_idempotent c v db r db1 :
  M20251022.process_story_view c v db = ok (r, db1) →
  json_get "success" r = Some (JBool true) →
  M20251022.process_story_view c v db1 = ok (first_already_viewed, db1).
Proof.
  intros Hrun Hok.
  pose proof (first_process_story_view_outcome c v db) as Hout. rewrite Hrun in Hout.
  inversion Hout as [Hsel|row Hsel Hv|row db' Hsel Hv Hp Hin He
                    |row p b Hsel Hv Hp Hp0 Hbal Hlt|row e Hsel Hv
                    |row p db' Hsel Hv Hp Hp0 Hb Hin Hino Hfit He]; subst.
  - discriminate Hok.
  - by apply first_viewed_forward with row.
  - destruct He as (_ & _ & _ & Hs & _ & _ & _ & Hsv & _).
    apply first_viewed_forward with (set_view_count_plus_1 row).
    + rewrite Hs, select_content_view_count_plus_1, decide_True by done.
      by rewrite Hsel.
    + unfold story_view_exists. rewrite Hsv, existsb_app. cbn.
      by rewrite uuid_pair_refl, orb_true_r.
  - discriminate Hok.
  - destruct He as (_ & _ & _ & Hs & _ & _ & _ & Hsv & _).
    apply first_viewed_forward with (set_view_count_plus_1 row).
    + rewrite Hs, select_content_view_count_plus_1, decide_True by done.
      by rewrite Hsel.
    + unfold story_view_exists. rewrite Hsv, existsb_app. cbn.
      by rewrite uuid_pair_refl, orb_true_r.
Qed.

Lemma first_story_view_idempotent_witness :
  let db := example_db 5 (Some 3) in
  let db1 := after (M20251022.process_story_view (Uuid "c1") viewer db) db in
  M20251022.process_story_view (Uuid "c1") viewer db1 = ok (first_already_viewed, db1).
Proof.
  cbv zeta.
  destruct (M20251022.process_story_view (Uuid "c1") viewer (example_db 5 (Some 3)))
    as [[r db1]|e] eqn:Hrun; [|vm_compute in Hrun; discriminate Hrun].
  apply (first_story_view_idempotent (Uuid "c1") viewer (example_db 5 (Some 3)) r db1 Hrun).
  vm_compute in Hrun. injection Hrun as <- _. reflexivity.
Defined.



(** X14: a NULL price makes the first [process_story_view] fail.  On a live
    story not yet viewed whose [star_price] is NULL, no guard fires: for a
    registered viewer the insert into [story_transactions] violates NOT
    NULL, for any other the insert into [story_views] violates its foreign
    key.  The call raises and nothing is written. *)
Theorem first_story_view_null_price_raises c v db row :
  user_storylines db !! c = Some row → status row = "active" →
  star_price row = None → story_view_exists c v db = false →
  M20251022.process_story_view c v db =
    raise (if decide (v ∈ auth_users db) then not_null_violation
           else foreign_key_violation) ∧
  run (call_first_story_view c v) db = db.
Proof.
  intros Hrow Hst Hprice Hv.
  assert (select_content (user_storylines db) c "active" = Some row) as Hsel
    by by apply select_content_Some.
  assert (M20251022.process_story_view c v db =
            raise (if decide (v ∈ auth_users db) then not_null_violation
                   else foreign_key_violation)) as Hraise.
  { unfold M20251022.process_story_view. rewrite Hsel, Hv, Hprice.
    cbn [sql_eq sql_binop sql_true from_option id].
    replace (sql_lt (select_star_balance v db) None) with (@None bool)
      by by destruct (select_star_balance v db).
    cbn [sql_true from_option id]. rewrite !earn_null.
    destruct (update_user_profiles_checked_null (user_id row)
                (update_user_profiles (set_star_balance_minus None) v db))
      as (db1 & -> & Ha1 & Hs1 & _). cbn [bind].
    destruct (update_user_profiles_checked_null v db1) as (db2 & -> & Ha2 & Hs2 & _).
    cbn [bind]. cbn [update_user_profiles auth_users user_storylines] in Ha1, Hs1.
    destruct (decide (v ∈ auth_users db)) as [Hin|Hin].
    - rewrite insert_story_views_ok; [done| |by rewrite Ha2, Ha1].
      cbn [sv_story_id]. rewrite Hs2, Hs1, Hrow. by eexists.
    - rewrite insert_story_views_raise; [done|]. cbn [sv_viewer_id]. by rewrite Ha2, Ha1. }
  split; [done|]. cbn [run]. by rewrite Hraise.
Qed.

Lemma first_story_view_null_price_raises_witness :
  M20251022.process_story_view (Uuid "c1") viewer (example_db 5 None) =
    raise (if decide (viewer ∈ auth_users (example_db 5 None)) then not_null_violation
           else foreign_key_violation) ∧
  run (call_first_story_view (Uuid "c1") viewer) (example_db 5 None) = example_db 5 None.
Proof.
  apply (first_story_view_null_price_raises (Uuid "c1") viewer (example_db 5 None)
           (mk_content_row owner None "active" (Some 0))); reflexivity.
Defined.



(** ** The view counter *)

Lemma views_of_snoc s c v x db db' :
  story_views db' = story_views db ++ [mk_story_views_row c v x] →
  views_of s db' = if decide (c = s) then S (views_of s db) else views_of s db.
Proof.
  intros Hsv. unfold views_of. rewrite Hsv, List.filter_app, length_app. cbn.
  destruct (decide (c = s)) as [->|Hne].
  - rewrite bool_decide_eq_true_2 by done. cbn. lia.
  - rewrite bool_decide_eq_false_2 by done. cbn. lia.
Qed.

(** Appending a View Record of [c] and adding one to the counter of [c]
    keeps the counters exact. *)
Lemma view_count_exact_step c v x db db' :
  user_storylines db' = alter set_view_count_plus_1 c (user_storylines db) →
  story_views db' = story_views db ++ [mk_story_views_row c v x] →
  view_count_exact db → view_count_exact db'.
Proof.
  intros Hs Hsv Hex s row n Hrow Hn.
  rewrite (views_of_snoc s c v x db db' Hsv). rewrite Hs, lookup_alter in Hrow.
  destruct (decide (c = s)) as [->|Hne]; [|by apply (Hex s row n)].
  destruct (user_storylines db !! s) as [row0|] eqn:Hrow0; [|done].
  injection Hrow as <-. cbn in Hn.
  destruct (view_count row0) as [n0|] eqn:Hn0; [|done].
  injection Hn as <-. rewrite (Hex s row0 n0 Hrow0 Hn0). lia.
Qed.

Lemma first_story_view_keeps_count c v db :
  view_count_exact db → view_count_exact (run (call_first_story_view c v) db).
Proof.
  intros Hex. cbn [run].
  destruct (first_process_story_view_outcome c v db)
    as [?|? ? ?|row db' Hsel Hv Hp Hin He|? ? ? ? ? ? ? ? ?|? ? ? ?
       |row p db' Hsel Hv Hp Hp0 Hb Hin Hino Hfit He];
    try done.
  - destruct He as (_ & _ & _ & Hs & _ & _ & _ & Hsv & _).
    by apply (view_count_exact_step c v (Some 0) db).
  - destruct He as (_ & _ & _ & Hs & _ & _ & _ & Hsv & _).
    by apply (view_count_exact_step c v (Some p) db).
Qed.

(** X16: the first [process_story_view] keeps every view counter exact.
    If each story's [view_count] (where not NULL) equals the number of its
    [story_views] rows, it still does after any sequence of calls of that
    procedure: every recorded view, free or paid, is counted once. *)
Theorem first_story_view_counts_every_view (cvs : list (uuid * uuid)) db :
  view_count_exact db →
  view_count_exact (run_all ((λ cv, call_first_story_view cv.1 cv.2) <$> cvs) db).
Proof.
  revert db. induction cvs as [|[c v] cvs IH]; intros db Hex; [done|].
  cbn [fmap list_fmap run_all foldl]. apply IH. by apply first_story_view_keeps_count.
Qed.

Lemma first_story_view_counts_every_view_witness :
  view_count_exact
    (run_all ((λ cv, call_first_story_view cv.1 cv.2) <$>
                [(Uuid "c1", viewer); (Uuid "c1", owner); (Uuid "c1", viewer)])
       (example_db 5 (Some 3))).
Proof.
  apply (first_story_view_counts_every_view _ (example_db 5 (Some 3))).
  intros s row n Hrow Hn. cbn [example_db user_storylines] in Hrow.
  apply lookup_insert_Some in Hrow as [[<- <-]|[_ Hrow]]; [|by rewrite lookup_empty in Hrow].
  cbn in Hn. injection Hn as <-. reflexivity.
Defined.

(** ** Star balances under all three procedures *)

Lemma first_charge_effect_profile c v u p db db' w r' :
  first_charge_effect c v u p db db' →
  user_profiles db' !! w = Some r' →
  ∃ r, user_profiles db !! w = Some r ∧
       star_balance r' =
         if decide (v = w) then sql_sub (star_balance r) (Some p) else star_balance r.
Proof.
  intros (_ & Hprof & _) Hw. rewrite Hprof in Hw.
  destruct (decide (v = w)) as [->|Hvw].
  - rewrite lookup_alter_eq in Hw.
    destruct (decide (u = w)) as [->|Huw];
      [rewrite lookup_alter_eq in Hw|rewrite lookup_alter_ne in Hw by done];
      rewrite lookup_alter_eq in Hw;
      (destruct (user_profiles db !! w) as [r|]; [|done]);
      injection Hw as <-; by exists r.
  - rewrite lookup_alter_ne in Hw by done.
    destruct (decide (u = w)) as [->|Huw];
      [rewrite lookup_alter_eq in Hw|rewrite lookup_alter_ne in Hw by done];
      rewrite lookup_alter_ne in Hw by done;
      (destruct (user_profiles db !! w) as [r|]; [|done]);
      injection Hw as <-; by exists r.
Qed.

Lemma run_stars_nonneg cl db : stars_nonneg db → stars_nonneg (run cl db).
Proof.
  intros Hinv.
  destruct cl as [c v|c v|c v]; rewrite ?run_call_story_view; [|done|].
  { by apply (recordView_stars_nonneg Post). }
  cbn [run].
  destruct (first_process_story_view_outcome c v db)
    as [?|? ? ?|row db' Hsel Hv Hp Hin He|? ? ? ? ? ? ? ? ?|? ? ? ?
       |row p db' Hsel Hv Hp Hp0 Hb Hin Hino Hfit He];
    try done.
  - destruct He as (_ & Hprof & _). intros u r b. cbn [after]. rewrite Hprof. apply Hinv.
  - intros u r' b' Hu Hb'. cbn [after] in Hu.
    destruct (first_charge_effect_profile _ _ _ _ _ _ _ _ He Hu) as (r & Hr & Hs).
    destruct (decide (v = u)) as [->|Hne]; [|apply (Hinv u r b' Hr); congruence].
    unfold select_star_balance in Hb. rewrite Hr in Hb.
    destruct (star_balance r) as [b|] eqn:Hbal; [|rewrite Hs in Hb'; discriminate Hb'].
    cbn in Hb. apply Z.ltb_ge in Hb. pose proof (Hinv u r b Hr Hbal).
    rewrite Hs in Hb'. cbn in Hb'. injection Hb' as <-. lia.
Qed.

(** X18: no procedure makes a star balance negative.  From a state whose
    star balances are all non-negative, any sequence of calls of
    [process_post_view] and of both definitions of [process_story_view]
    leads to a state whose star balances are all non-negative. *)
Theorem stars_nonneg_under_all_procedures cls db :
  stars_nonneg db → stars_nonneg (run_all cls db).
Proof. apply run_all_ind. intros cl d. apply run_stars_nonneg. Qed.

Lemma stars_nonneg_under_all_procedures_witness :
  stars_nonneg
    (run_all [call_first_story_view (Uuid "c1") viewer; call_post_view "c1" viewer;
              call_story_view "c1" viewer] (example_db 7 (Some 3))).
Proof.
  apply (stars_nonneg_under_all_procedures _ (example_db 7 (Some 3))).
  apply example_db_stars_nonneg. lia.
Defined.

(** ** The media picker *)

Module CreatePostFacts.
Import CreatePost.

Lemma filter_from_below {A} (index k : Z) (l : list A) :
  index < k → filter_from (λ _ i, negb (i =? index)) k l = l.
Proof.
  revert k. induction l as [|x l IH]; intros k Hlt; [done|].
  cbn. destruct (k =? index) eqn:E; [apply Z.eqb_eq in E; lia|].
  cbn. f_equal. apply IH. lia.
Qed.

Lemma filter_from_delete {A} (index k : Z) (l : list A) :
  k ≤ index → filter_from (λ _ i, negb (i =? index)) k l = delete (Z.to_nat (index - k)) l.
Proof.
  revert k. induction l as [|x l IH]; intros k Hle; [done|].
  cbn [filter_from]. destruct (k =? index) eqn:E; cbn [negb].
  - apply Z.eqb_eq in E as ->. rewrite Z.sub_diag. cbn.
    apply filter_from_below. lia.
  - apply Z.eqb_neq in E. rewrite IH by lia.
    replace (Z.to_nat (index - k)) with (S (Z.to_nat (index - (k + 1)))) by lia.
    done.
Qed.

(** X19: [removeMedia] deletes exactly one position.  For an index from 0
    on it removes the file and the preview at that position and keeps the
    others in order (nothing when the index is past the end); for a
    negative index it changes nothing. *)
Theorem removeMedia_deletes_position (index : Z) (st : state) :
  removeMedia index st =
    if decide (0 ≤ index) then
      mk_state (delete (Z.to_nat index) (mediaFiles st))
        (delete (Z.to_nat index) (mediaPreviews st))
    else st.
Proof.
  unfold removeMedia, js_filter. destruct (decide (0 ≤ index)) as [Hle|Hlt].
  - rewrite !filter_from_delete by done. by rewrite Z.sub_0_r.
  - rewrite !filter_from_below by lia. by destruct st.
Qed.

Lemma validFile_acceptable (file : File) : (validFile file).1 = true → acceptable file.
Proof.
  unfold validFile, acceptable.
  destruct (file_size file >? maxSize file) eqn:E; cbn; [done|].
  intros H. apply orb_true_iff in H. split; [done|].
  rewrite Z.gtb_ltb in E. apply Z.ltb_ge in E. lia.
Qed.

Lemma handleMediaChange_ok createObjectURL files st :
  picker_ok st → picker_ok (handleMediaChange createObjectURL files st).1.
Proof.
  intros (Hlen & Hprev & Hacc). unfold handleMediaChange.
  destruct (_ >? 3) eqn:E; [done|]. rewrite Z.gtb_ltb in E. apply Z.ltb_ge in E.
  repeat split; cbn.
  - rewrite length_app. lia.
  - rewrite !length_app, length_map. lia.
  - apply Forall_app. split; [done|].
    apply Forall_forall. intros file Hin. apply list_elem_of_In, filter_In in Hin.
    apply validFile_acceptable, Hin.
Qed.

Lemma length_delete_total {A} (l : list A) (n : nat) :
  length (delete n l) = if decide (n < length l)%nat then pred (length l) else length l.
Proof.
  revert n. induction l as [|x l IH]; intros [|n]; cbn; try done.
  rewrite IH. destruct (decide (n < length l)%nat), (decide (S n < S (length l))%nat);
    lia.
Qed.

Lemma removeMedia_ok index st : picker_ok st → picker_ok (removeMedia index st).
Proof.
  intros (Hlen & Hprev & Hacc). unfold removeMedia, js_filter.
  destruct (decide (0 ≤ index)) as [Hle|Hlt];
    [rewrite !filter_from_delete, Z.sub_0_r by done
    |rewrite !filter_from_below by lia; by destruct st].
  repeat split; cbn.
  - rewrite length_delete_total. destruct (decide _); lia.
  - by rewrite !length_delete_total, Hprev.
  - by apply Forall_delete.
Qed.

(** X20: the picker never holds more than three files.  Whatever files are
    selected and whatever positions are removed, in any order, from the
    empty form on: [mediaFiles] has at most three entries, [mediaPreviews]
    has one entry per file, and every file held is an image or a video
    within its size limit (500 MB for a video, 20 MB otherwise). *)
Theorem picker_never_exceeds_three createObjectURL (es : list event) :
  let st := foldl (handle createObjectURL) initial es in
  (length (mediaFiles st) ≤ 3)%nat ∧
  length (mediaPreviews st) = length (mediaFiles st) ∧
  Forall acceptable (mediaFiles st).
Proof.
  cbv zeta. change (picker_ok (foldl (handle createObjectURL) initial es)).
  assert (picker_ok initial) as H0 by (repeat split; cbn; [lia|constructor]).
  revert H0. generalize initial. induction es as [|e es IH]; intros st Hst; [done|].
  cbn [foldl]. apply IH. destruct e as [files|index]; cbn [handle].
  - by apply handleMediaChange_ok.
  - by apply removeMedia_ok.
Qed.

(** A selection that does not fit is refused whole.  When the valid
    files of a selection and the files already held are more than three,
    [handleMediaChange] keeps the state as it was, valid files included,
    and its last toast is "Too many files"; otherwise it appends all the
    valid files of the selection, in order, and their previews. *)
Theorem selection_is_all_or_nothing createObjectURL files st :
  let validFiles := List.filter (λ file, (validFile file).1) files in
  let st' := (handleMediaChange createObjectURL files st).1 in
  let toasts := (handleMediaChange createObjectURL files st).2 in
  ((length validFiles + length (mediaFiles st) > 3)%nat →
     st' = st ∧ title <$> last toasts = Some "Too many files") ∧
  ((length validFiles + length (mediaFiles st) ≤ 3)%nat →
     mediaFiles st' = mediaFiles st ++ validFiles ∧
     mediaPreviews st' = mediaPreviews st ++ (createObjectURL <$> validFiles) ∧
     Forall (λ t, title t = "File too large") toasts).
Proof.
  cbv zeta. unfold handleMediaChange.
  destruct (_ >? 3) eqn:E.
  - rewrite Z.gtb_ltb in E. apply Z.ltb_lt in E. split; [|lia]. intros _. split; [done|].
    cbn. by rewrite last_snoc.
  - rewrite Z.gtb_ltb in E. apply Z.ltb_ge in E. split; [lia|]. intros _. cbn.
    repeat split. apply Forall_forall. intros t Hin.
    apply list_elem_of_In, in_flat_map in Hin as (file & _ & Hin).
    unfold validFile in Hin. destruct (file_size file >? maxSize file); cbn in Hin; [|done].
    by destruct Hin as [<-|[]].
Qed.

End CreatePostFacts.

(** ** The likes of the feed *)

Module FeedFacts.
Import Feed.

(** Filing a like under a key that is no name of [Object.prototype]. *)
Lemma group_like_normal m like :
  pl_post_id like ∉ Object_prototype →
  group_like m like =
    normal (<[pl_post_id like := default [] (m !! pl_post_id like) ++ [like]]> m).
Proof.
  intros Hk. unfold group_like, js_get.
  destruct (m !! pl_post_id like) as [l|] eqn:Hm.
  - by rewrite Hm.
  - rewrite bool_decide_eq_false_2 by done. rewrite lookup_insert_eq.
    by rewrite insert_insert_eq.
Qed.

(** Filing a like under an inherited name: [push] is called on what the
    prototype holds. *)
Lemma group_like_TypeError m like :
  pl_post_id like ∈ Object_prototype → m !! pl_post_id like = None →
  group_like m like = TypeError.
Proof.
  intros Hk Hm. unfold group_like, js_get.
  rewrite Hm, bool_decide_eq_true_2 by done. cbn beta iota.
  by rewrite Hm.
Qed.

Lemma forEach_group_like_normal likesData m :
  Forall (λ like, pl_post_id like ∉ Object_prototype) likesData →
  ∃ m', forEach_group_like m likesData = normal m' ∧
    (∀ p, default [] (m' !! p) =
          default [] (m !! p) ++
          List.filter (λ like, String.eqb (pl_post_id like) p) likesData) ∧
    (∀ p, p ∈ Object_prototype → m !! p = None → m' !! p = None).
Proof.
  revert m. induction likesData as [|like likesData IH]; intros m Hall.
  - exists m. split; [done|]. split; [intros p; by rewrite app_nil_r|done].
  - apply Forall_cons in Hall as [Hk Hall]. cbn [forEach_group_like].
    rewrite group_like_normal by done.
    destruct (IH (<[pl_post_id like := default [] (m !! pl_post_id like) ++ [like]]> m)
                Hall) as (m' & Hrun & Hlookup & Hproto).
    exists m'. split; [done|]. split.
    + intros p. rewrite Hlookup. cbn [List.filter].
      destruct (String.eqb (pl_post_id like) p) eqn:E.
      * apply eqb_string_true in E as <-. rewrite lookup_insert_eq. cbn.
        by rewrite <- app_assoc.
      * apply eqb_string_false in E. by rewrite lookup_insert_ne.
    + intros p Hp Hm. apply Hproto; [done|].
      rewrite lookup_insert_ne; [done|]. by intros <-.
Qed.

Lemma forEach_group_like_TypeError likesData m :
  (∀ p, p ∈ Object_prototype → m !! p = None) →
  Exists (λ like, pl_post_id like ∈ Object_prototype) likesData →
  forEach_group_like m likesData = TypeError.
Proof.
  revert m. induction likesData as [|like likesData IH]; intros m Hm Hex.
  - by apply Exists_nil in Hex.
  - cbn [forEach_group_like].
    destruct (decide (pl_post_id like ∈ Object_prototype)) as [Hk|Hk].
    + by rewrite group_like_TypeError by auto.
    + rewrite group_like_normal by done. apply IH.
      * intros p Hp. rewrite lookup_insert_ne; [by apply Hm|]. by intros <-.
      * by apply Exists_cons in Hex as [Hex|Hex].
Qed.

(** X21: the grouping of likes by post loses and invents nothing, unless a
    post id is a name of [Object.prototype].  When no fetched like has such
    a post id, the list filed under a post id is exactly the fetched likes
    of that post, in the order fetched, and [isPostLiked] answers true
    exactly when one of them is the signed-in user's, except that for an
    inherited name it throws a [TypeError]; when some fetched like has such
    a post id, the grouping itself throws. *)
Theorem likes_are_grouped_by_post (likesData : list PostLike) :
  (Forall (λ like, pl_post_id like ∉ Object_prototype) likesData →
   ∃ m, likesLookup likesData = normal m ∧
     ∀ postId,
       default [] (m !! postId) =
         List.filter (λ like, String.eqb (pl_post_id like) postId) likesData ∧
       ∀ user_id,
         if bool_decide (postId ∈ Object_prototype)
         then isPostLiked (Some user_id) m postId = TypeError
         else ∃ b, isPostLiked (Some user_id) m postId = normal b ∧
                (b = true ↔
                 ∃ like, like ∈ likesData ∧ pl_post_id like = postId ∧
                         pl_user_id like = user_id)) ∧
  (Exists (λ like, pl_post_id like ∈ Object_prototype) likesData →
   likesLookup likesData = TypeError).
Proof.
  split; [|by apply forEach_group_like_TypeError].
  intros Hall. destruct (forEach_group_like_normal likesData ∅ Hall)
    as (m & Hrun & Hlookup & Hproto).
  exists m. split; [done|]. intros postId.
  assert (default [] (m !! postId) =
            List.filter (λ like, String.eqb (pl_post_id like) postId) likesData) as Hgroup.
  { by rewrite Hlookup, lookup_empty. }
  split; [done|]. intros user_id. unfold isPostLiked, js_get.
  destruct (bool_decide (postId ∈ Object_prototype)) eqn:Hp.
  - apply bool_decide_eq_true in Hp. by rewrite (Hproto postId Hp (lookup_empty _)).
  - eexists. split.
    { instantiate (1 := existsb (λ like, String.eqb (pl_user_id like) user_id)
                          (default [] (m !! postId))).
      by destruct (m !! postId). }
    rewrite Hgroup, existsb_exists. split.
    + intros (like & Hin & Hu). apply filter_In in Hin as [Hin Hpost].
      exists like. split; [by apply list_elem_of_In|].
      split; by apply eqb_string_true.
    + intros (like & Hin & Hpost & Hu). exists like. split; [|by apply eqb_string_true].
      apply filter_In. split; [by apply list_elem_of_In|by apply eqb_string_true].
Qed.

Lemma likes_are_grouped_by_post_witness :
  let l1 := mk_PostLike "l1" "u1" "p1" in
  let l2 := mk_PostLike "l2" "u2" "p2" in
  let l3 := mk_PostLike "l3" "u2" "p1" in
  let bad := mk_PostLike "l4" "u1" "constructor" in
  (∃ m, likesLookup [l1; l2; l3] = normal m ∧
     ∀ postId,
       default [] (m !! postId) =
         List.filter (λ like, String.eqb (pl_post_id like) postId) [l1; l2; l3] ∧
       ∀ user_id,
         if bool_decide (postId ∈ Object_prototype)
         then isPostLiked (Some user_id) m postId = TypeError
         else ∃ b, isPostLiked (Some user_id) m postId = normal b ∧
                (b = true ↔
                 ∃ like, like ∈ [l1; l2; l3] ∧ pl_post_id like = postId ∧
                         pl_user_id like = user_id)) ∧
  likesLookup [l1; bad; l2] = TypeError.
Proof.
  split.
  - apply (proj1 (likes_are_grouped_by_post _)).
    apply (bool_decide_unpack _). vm_compute. exact I.
  - apply (proj2 (likes_are_grouped_by_post _)).
    apply (bool_decide_unpack _). vm_compute. exact I.
Defined.

Lemma username_or_Unknown_lookup users like :
  username_or_Unknown users like =
    match users !! pl_user_id like with
    | Some u => if Boolean (up_username u) then up_username u else "Unknown"
    | None => "Unknown"
    end.
Proof.
  unfold username_or_Unknown, js_get. destruct (users !! pl_user_id like); [done|].
  by destruct (bool_decide _).
Qed.

Lemma username_or_Unknown_Boolean users like :
  Boolean (username_or_Unknown users like) = true.
Proof.
  rewrite username_or_Unknown_lookup.
  destruct (users !! pl_user_id like) as [u|]; [|done].
  by destruct (Boolean (up_username u)) eqn:E.
Qed.

Lemma filter_Boolean_usernames users (likes : list PostLike) :
  List.filter Boolean (map (username_or_Unknown users) likes) =
    map (username_or_Unknown users) likes.
Proof.
  induction likes as [|like likes IH]; [done|].
  cbn. by rewrite username_or_Unknown_Boolean, IH.
Qed.

(** X22: [getUsernamesWhoLiked] names every like, unless the post id is an
    inherited name.  When the post id is an own key of [postLikes] or no
    name of [Object.prototype], its [filter(Boolean)] never drops an entry:
    the result has one non-empty name per like filed under the post, the
    liker's username when the profile is an own entry of [users] and the
    username is not empty, and "Unknown" otherwise.  When the post id is
    not an own key and is a name of [Object.prototype], the call throws a
    [TypeError]. *)
Theorem every_like_is_named users postLikes postId :
  (is_Some (postLikes !! postId) ∨ postId ∉ Object_prototype →
   let postLikesList := default [] (postLikes !! postId) in
   ∃ names, getUsernamesWhoLiked users postLikes postId = normal names ∧
     names =
       map (λ like,
              match users !! pl_user_id like with
              | Some u => if Boolean (up_username u) then up_username u else "Unknown"
              | None => "Unknown"
              end) postLikesList ∧
     length names = length postLikesList ∧
     Forall (λ name, name ≠ "") names) ∧
  (postLikes !! postId = None → postId ∈ Object_prototype →
   getUsernamesWhoLiked users postLikes postId = TypeError).
Proof.
  split.
  - intros Hkey. cbv zeta.
    exists (map (username_or_Unknown users) (default [] (postLikes !! postId))).
    split; [|split; [|split]].
    + unfold getUsernamesWhoLiked, js_get.
      destruct (postLikes !! postId) as [l|] eqn:Hl.
      * by rewrite filter_Boolean_usernames.
      * destruct Hkey as [[? [=]]|Hkey]. by rewrite bool_decide_eq_false_2.
    + apply map_ext. intros like. apply username_or_Unknown_lookup.
    + by rewrite length_map.
    + apply Forall_forall. intros name Hin. apply list_elem_of_In, in_map_iff in Hin.
      destruct Hin as (like & <- & _). pose proof (username_or_Unknown_Boolean users like) as H.
      unfold Boolean in H at 1. by apply negb_true_iff, eqb_string_false in H.
  - intros Hnone Hp. unfold getUsernamesWhoLiked, js_get.
    by rewrite Hnone, bool_decide_eq_true_2.
Qed.

Lemma every_like_is_named_witness :
  let users := <["u1" := mk_UserProfile "u1" "ada" "" false]>
                 (<["u2" := mk_UserProfile "u2" "" "" false]> ∅) in
  let likes := [mk_PostLike "l1" "u1" "p1"; mk_PostLike "l2" "u2" "p1";
                mk_PostLike "l3" "toString" "p1"] in
  let postLikes := <["p1" := likes]> ∅ in
  (∃ names, getUsernamesWhoLiked users postLikes "p1" = normal names ∧
     names =
       map (λ like,
              match users !! pl_user_id like with
              | Some u => if Boolean (up_username u) then up_username u else "Unknown"
              | None => "Unknown"
              end) (default [] (postLikes !! "p1")) ∧
     length names = length (default [] (postLikes !! "p1")) ∧
     Forall (λ name, name ≠ "") names) ∧
  getUsernamesWhoLiked users postLikes "constructor" = TypeError.
Proof.
  cbv zeta. split.
  - apply (proj1 (every_like_is_named _ _ "p1")). left. by eexists.
  - apply (proj2 (every_like_is_named _ _ "constructor")); [reflexivity|].
    apply (bool_decide_unpack _). vm_compute. exact I.
Defined.

End FeedFacts.

(** ** At most one charge per story and viewer *)

Lemma run_charges_have_views cl db : charges_have_views db → charges_have_views (run cl db).
Proof.
  intros Hinv.
  destruct cl as [c0 v0|c0 v0|c0 v0]; rewrite ?run_call_story_view; [| |]; cbn [run];
    [|done|].
  - destruct (process_post_view_outcome c0 v0 db)
      as [?|? ? ?|? ? ? ? ?|? ? ? ? ? ?|? ? ? ?|row p db' Hc Hfit He]; try done.
    intros c v. specialize (Hinv c v). cbn [after].
    destruct (charge_effect_story_tables Story c v _ _ _ _ _ _ He) as (_ & -> & ->).
    done.
  - destruct (first_process_story_view_outcome c0 v0 db)
      as [?|? ? ?|row db' Hsel Hv Hp Hin He|? ? ? ? ? ? ? ? ?|? ? ? ?
         |row p db' Hsel Hv Hp Hp0 Hb Hin Hino Hfit He];
      try done.
    + destruct He as (_ & _ & _ & _ & _ & _ & _ & Hsv & Hst & _).
      intros c v. specialize (Hinv c v). cbn [after].
      rewrite (story_view_records_snoc c v c0 v0 (Some 0) db db' Hsv).
      assert (ledger Story c v db' = ledger Story c v db) as ->
        by (cbn [ledger]; by rewrite Hst).
      rewrite length_app. lia.
    + destruct He as (_ & _ & _ & _ & _ & _ & _ & Hsv & Hst & _).
      intros c v. specialize (Hinv c v). cbn [after].
      rewrite (story_ledger_snoc _ _ _ _ _ Hst), (story_view_records_snoc _ _ _ _ _ _ _ Hsv).
      cbn [st_story_id st_viewer_id].
      destruct (bool_decide (c0 = Uuid c) && bool_decide (v0 = v));
        rewrite !length_app; cbn [length]; lia.
Qed.

Lemma unique_pair_one_view c v db :
  NoDup (story_pairs db) → (length (view_records Story c v db) ≤ 1)%nat.
Proof.
  unfold story_pairs. cbn [view_records]. rewrite length_fmap.
  induction (story_views db) as [|r l IH]; cbn; [lia|].
  intros Hnd. apply NoDup_cons in Hnd as [Hnotin Hnd].
  destruct (bool_decide (sv_story_id r = Uuid c) && bool_decide (sv_viewer_id r = v)) eqn:E;
    [|by apply IH].
  apply andb_true_iff in E as [E1 E2]. apply bool_decide_eq_true in E1, E2.
  cbn. assert (List.filter
                 (λ r0, bool_decide (sv_story_id r0 = Uuid c)
                        && bool_decide (sv_viewer_id r0 = v)) l = []) as ->;
    [|cbn; lia].
  apply filter_existsb_false. apply not_true_is_false. intros Hex.
  apply existsb_exists in Hex as (r0 & Hin & Heq).
  apply andb_true_iff in Heq as [E3 E4]. apply bool_decide_eq_true in E3, E4.
  apply Hnotin, list_elem_of_fmap. exists r0. split; [by rewrite E1, E2, E3, E4|].
  by apply list_elem_of_In.
Qed.

(** X23: a story is charged to a viewer at most once, whichever of the two
    story procedures is called and in whatever order.  From a state in which
    no pair has two View Records and every pair has at least as many View
    Records as story Ledger Transactions, every state reached by calls of
    the three procedures has, for every story and viewer, at most one View
    Record and at most as many story Ledger Transactions. *)
Theorem story_charged_at_most_once cls db c v :
  NoDup (story_pairs db) → charges_have_views db →
  (length (ledger Story c v (run_all cls db))
   ≤ length (view_records Story c v (run_all cls db)))%nat ∧
  (length (view_records Story c v (run_all cls db)) ≤ 1)%nat.
Proof.
  intros Hnd Hinv. split.
  - by apply (run_all_ind charges_have_views run_charges_have_views cls db).
  - apply unique_pair_one_view.
    by apply (run_all_ind (λ d, NoDup (story_pairs d)) run_keeps_pairs_unique cls db).
Qed.

Lemma story_charged_at_most_once_witness :
  let db := run_all [call_first_story_view (Uuid "c1") viewer; call_story_view "c1" viewer;
                     call_first_story_view (Uuid "c1") viewer; call_post_view "c1" viewer]
              (example_db 9 (Some 3)) in
  (length (ledger Story "c1" viewer db) ≤ length (view_records Story "c1" viewer db))%nat ∧
  (length (view_records Story "c1" viewer db) ≤ 1)%nat.
Proof.
  apply (story_charged_at_most_once _ (example_db 9 (Some 3)) "c1" viewer).
  - apply NoDup_nil_2.
  - intros c v. cbn. lia.
Defined.

(** ** Money in, stars out *)

Lemma money_in_stars_out_refl r : money_in_stars_out r r.
Proof.
  unfold money_in_stars_out. repeat split; try apply Qle_refl.
  destruct (star_balance r); [lia|done].
Qed.

Lemma money_in_stars_out_trans r1 r2 r3 :
  money_in_stars_out r1 r2 → money_in_stars_out r2 r3 → money_in_stars_out r1 r3.
Proof.
  intros (W1 & E1 & S1) (W2 & E2 & S2). repeat split; [by eapply Qle_trans..|].
  destruct (star_balance r1), (star_balance r2), (star_balance r3); try done. lia.
Qed.

Lemma share_nonneg (p : Z) (ratio : Q) :
  0 ≤ p → (0 <= ratio)%Q → (0 <= inject_Z p * star_value * ratio)%Q.
Proof.
  intros Hp Hr. apply Qmult_le_0_compat; [|done].
  apply Qmult_le_0_compat; [|done]. unfold Qle. cbn. lia.
Qed.

Lemma Qle_plus_nonneg (w s : Q) : (0 <= s)%Q → (w <= w + s)%Q.
Proof.
  intros Hs. rewrite <- (Qplus_0_r w) at 1. apply Qplus_le_compat; [apply Qle_refl|done].
Qed.

Lemma wallet_of_credit_wallet n r :
  0 ≤ n → (wallet_of r <= wallet_of (credit_wallet n r))%Q.
Proof.
  intros Hn. unfold wallet_of, numeric_of, Qle.
  cbn [Qnum Qden credit_wallet wallet_balance coalesce from_option id cents].
  fold (wallet_cents r). lia.
Qed.

Lemma recordView_money_in_stars_out k c v db u r :
  user_profiles db !! u = Some r →
  ∃ r', user_profiles (after (recordView k c v db) db) !! u = Some r' ∧
        money_in_stars_out r r'.
Proof.
  intros Hr.
  destruct k; cbn [recordView];
    [|rewrite process_story_view_raises; exists r; split;
        [done|apply money_in_stars_out_refl]].
  destruct (process_post_view_outcome c v db)
    as [?|? ? ?|? ? ? ? ?|? ? ? ? ? ?|? ? ? ?|row p db' Hc Hfit He];
    try (exists r; split; [done|apply money_in_stars_out_refl]).
  pose proof Hc as (_ & _ & _ & Hp & Hne & _).
  assert (0 <= uploader_share p)%Q as Hup by (apply share_nonneg; [lia|done]).
  destruct He as (_ & Hprof & _). cbn [after]. rewrite Hprof.
  destruct (decide (v = u)) as [->|Hvu].
  - pose proof (chargeable_balance _ _ _ _ _ _ Hc Hr) as (b & Hb & Hle).
    eexists. split.
    { by rewrite lookup_alter_eq, lookup_alter_ne, lookup_alter_eq, Hr. }
    split; [|split].
    + apply (wallet_of_credit_wallet (10000 * p) (set_star_balance_minus (Some p) r)). lia.
    + apply Qle_refl.
    + cbn. rewrite Hb. cbn. lia.
  - rewrite lookup_alter_ne by done.
    destruct (decide (user_id row = u)) as [<-|Hou].
    + eexists. split; [by rewrite lookup_alter_eq, lookup_alter_ne, Hr|].
      split; [|split].
      * apply (wallet_of_credit_wallet (30000 * p) r). lia.
      * unfold earned_of. cbn. by apply Qle_plus_nonneg.
      * cbn. destruct (star_balance r); [lia|done].
    + exists r. split; [by rewrite !lookup_alter_ne|apply money_in_stars_out_refl].
Qed.

(** X24: money only comes in and stars only go out.  Along any sequence of
    [recordView] calls every profile stays in the table, its
    [wallet_balance] and [total_earned] (NULL read as 0) never decrease,
    and its [star_balance] never increases and never turns from or to
    NULL. *)
Theorem wallets_grow_and_stars_shrink db0 db u r0 :
  reachable db0 db → user_profiles db0 !! u = Some r0 →
  ∃ r, user_profiles db !! u = Some r ∧
    (wallet_of r0 <= wallet_of r)%Q ∧ (earned_of r0 <= earned_of r)%Q ∧
    match star_balance r0, star_balance r with
    | Some b0, Some b => b ≤ b0
    | None, None => True
    | _, _ => False
    end.
Proof.
  intros Hreach Hr0.
  change (∃ r, user_profiles db !! u = Some r ∧ money_in_stars_out r0 r).
  induction Hreach as [|k c v db Hreach (r & Hr & Hmono)].
  - exists r0. split; [done|apply money_in_stars_out_refl].
  - destruct (recordView_money_in_stars_out k c v db u r Hr) as (r' & Hr' & Hstep).
    exists r'. split; [done|]. by eapply money_in_stars_out_trans.
Qed.

Lemma wallets_grow_and_stars_shrink_witness :
  let db0 := example_db 9 (Some 3) in
  let db1 := after (recordView Story "c1" viewer db0) db0 in
  let db := after (recordView Post "c1" viewer db1) db1 in
  ∃ r, user_profiles db !! viewer = Some r ∧
    (wallet_of (profile 9 (Cents 0)) <= wallet_of r)%Q ∧
    (earned_of (profile 9 (Cents 0)) <= earned_of r)%Q ∧
    match star_balance (profile 9 (Cents 0)), star_balance r with
    | Some b0, Some b => b ≤ b0
    | None, None => True
    | _, _ => False
    end.
Proof.
  apply (wallets_grow_and_stars_shrink (example_db 9 (Some 3))).
  - apply reachable_call, reachable_call, reachable_init.
  - reflexivity.
Defined.
